(** * argoos: the webhook front end ([main.go])

    A shallow embedding of [main.go] of argoos: the token check
    ([checkToken]), the two HTTP handlers ([Action], [Health]) and the
    signal goroutine ([sig]), together with the parts of the Go standard
    library they call ([strings.TrimSpace], [http.Header.Get], the
    [http.ResponseWriter] protocol).

    Go strings are byte sequences; they are modelled by [string] (a list of
    8-bit [ascii] bytes).  Go's [int] and [rune] values are modelled by [Z];
    every value that occurs is a length, an index into a string or a decoded
    code point, so no wrap-around occurs except where it is written out. *)

From Stdlib Require Import ZArith Lia Ascii String List.
From stdpp Require Import base tactics option list strings gmap.

Local Open Scope Z_scope.

(** ** Go strings as byte sequences *)

Module GoString.

(** The numeric value of a byte. *)
Definition byteval (c : ascii) : Z := Z.of_N (N_of_ascii c).

(** The bytes of a string, as numbers in [0, 255]. *)
Definition bytes (s : string) : list Z := byteval <$> list_ascii_of_string s.

(** The line feed, written ['\n'] in Go. *)
Definition LF : string := String (ascii_of_N 10) EmptyString.

(** The string made of the given bytes. *)
Definition ofBytes (l : list N) : string :=
  string_of_list_ascii (ascii_of_N <$> l).

(** [len(s)] *)
Definition len (s : string) : Z := Z.of_nat (String.length s).

(** [s[i]] on a byte list; the callers guard the index. *)
Definition at_ (s : list Z) (i : Z) : Z := nth (Z.to_nat i) s 0.

(** [s[lo:hi]] *)
Definition slice (s : string) (lo hi : Z) : string :=
  String.substring (Z.to_nat lo) (Z.to_nat (hi - lo)) s.

End GoString.

(** ** unicode/utf8 *)

Module utf8.

Definition RuneError : Z := 0xFFFD.
Definition RuneSelf : Z := 0x80.
Definition UTFMax : Z := 4.

Definition maskx : Z := 0x3F.
Definition mask2 : Z := 0x1F.
Definition mask3 : Z := 0x0F.
Definition mask4 : Z := 0x07.

Definition locb : Z := 0x80.
Definition hicb : Z := 0xBF.

Definition xx : Z := 0xF1.
Definition as_ : Z := 0xF0.
Definition s1 : Z := 0x02.
Definition s2 : Z := 0x13.
Definition s3 : Z := 0x03.
Definition s4 : Z := 0x23.
Definition s5 : Z := 0x34.
Definition s6 : Z := 0x04.
Definition s7 : Z := 0x44.

(** The 256-entry table [first], row by row. *)
Definition first (b : Z) : Z :=
  if b <? 0x80 then as_
  else if b <? 0xC2 then xx
  else if b <? 0xE0 then s1
  else if b =? 0xE0 then s2
  else if b <? 0xED then s3
  else if b =? 0xED then s4
  else if b <? 0xF0 then s3
  else if b =? 0xF0 then s5
  else if b <? 0xF4 then s6
  else if b =? 0xF4 then s7
  else xx.

Record acceptRange := { lo : Z; hi : Z }.

Definition acceptRanges (i : Z) : acceptRange :=
  match i with
  | 0 => {| lo := locb; hi := hicb |}
  | 1 => {| lo := 0xA0; hi := hicb |}
  | 2 => {| lo := locb; hi := 0x9F |}
  | 3 => {| lo := 0x90; hi := hicb |}
  | 4 => {| lo := locb; hi := 0x8F |}
  | _ => {| lo := 0; hi := 0 |}
  end.

(** Conversion to a signed 32-bit [rune], wrap-around written out. *)
Definition int32 (z : Z) : Z := (z + 2^31) mod 2^32 - 2^31.

(** [utf8.DecodeRuneInString]: the first rune of [s] and its width in
    bytes; [(RuneError, 0)] on the empty string and [(RuneError, 1)] on an
    invalid encoding. *)
Definition DecodeRuneInString (s : list Z) : Z * Z :=
  let n := Z.of_nat (length s) in
  if n <? 1 then (RuneError, 0) else
  let b0 := GoString.at_ s 0 in
  let x := first b0 in
  if x >=? as_ then
    let mask := Z.shiftr (int32 (Z.shiftl x 31)) 31 in
    (Z.lor (Z.land b0 (Z.lnot mask)) (Z.land RuneError mask), 1)
  else
  let sz := Z.land x 7 in
  let accept := acceptRanges (Z.shiftr x 4) in
  if n <? sz then (RuneError, 1) else
  let b1 := GoString.at_ s 1 in
  if (b1 <? lo accept) || (hi accept <? b1) then (RuneError, 1) else
  if sz <=? 2 then
    (Z.lor (Z.shiftl (Z.land b0 mask2) 6) (Z.land b1 maskx), 2)
  else
  let b2 := GoString.at_ s 2 in
  if (b2 <? locb) || (hicb <? b2) then (RuneError, 1) else
  if sz <=? 3 then
    (Z.lor (Z.lor (Z.shiftl (Z.land b0 mask3) 12)
                  (Z.shiftl (Z.land b1 maskx) 6))
           (Z.land b2 maskx), 3)
  else
  let b3 := GoString.at_ s 3 in
  if (b3 <? locb) || (hicb <? b3) then (RuneError, 1) else
  (Z.lor (Z.lor (Z.lor (Z.shiftl (Z.land b0 mask4) 18)
                       (Z.shiftl (Z.land b1 maskx) 12))
                (Z.shiftl (Z.land b2 maskx) 6))
         (Z.land b3 maskx), 4).

(** [utf8.RuneStart] *)
Definition RuneStart (b : Z) : bool := negb (Z.land b 0xC0 =? 0x80).

(** The backing-up loop of [DecodeLastRuneInString]:
    [for start--; start >= lim; start-- { if RuneStart(s[start]) { break } }].
    It runs at most [UTFMax] times; [fuel] bounds the iterations. *)
Fixpoint backup (fuel : nat) (s : list Z) (lim start : Z) : Z :=
  match fuel with
  | O => start
  | S fuel' =>
      if start >=? lim then
        if RuneStart (GoString.at_ s start) then start
        else backup fuel' s lim (start - 1)
      else start
  end.

(** [utf8.DecodeLastRuneInString] *)
Definition DecodeLastRuneInString (s : list Z) : Z * Z :=
  let end_ := Z.of_nat (length s) in
  if end_ =? 0 then (RuneError, 0) else
  let start := end_ - 1 in
  let r := GoString.at_ s start in
  if r <? RuneSelf then (r, 1) else
  let lim := end_ - UTFMax in
  let lim := if lim <? 0 then 0 else lim in
  let start := backup (Z.to_nat UTFMax) s lim (start - 1) in
  let start := if start <? 0 then 0 else start in
  let '(r, size) := DecodeRuneInString (drop (Z.to_nat start) s) in
  if negb (start + size =? end_) then (RuneError, 1) else (r, size).

End utf8.

(** ** unicode *)

Module unicode.

Definition MaxLatin1 : Z := 0xFF.

(** The range table [unicode.White_Space] (all strides are 1) and its
    [LatinOffset]. *)
Definition White_Space : list (Z * Z) :=
  [ (0x0009, 0x000d); (0x0020, 0x0020); (0x0085, 0x0085); (0x00a0, 0x00a0);
    (0x1680, 0x1680); (0x2000, 0x200a); (0x2028, 0x2029); (0x202f, 0x202f);
    (0x205f, 0x205f); (0x3000, 0x3000) ].
Definition LatinOffset : nat := 4.

Definition isExcludingLatin (tab : list (Z * Z)) (r : Z) : bool :=
  existsb (fun rg => (fst rg <=? r) && (r <=? snd rg)) (drop LatinOffset tab).

(** Conversion of a [rune] to [uint32]. *)
Definition uint32 (r : Z) : Z := r mod 2^32.

(** [unicode.IsSpace] *)
Definition IsSpace (r : Z) : bool :=
  if uint32 r <=? MaxLatin1 then
    (r =? 0x09) || (r =? 0x0A) || (r =? 0x0B) || (r =? 0x0C) || (r =? 0x0D)
    || (r =? 0x20) || (r =? 0x85) || (r =? 0xA0)
  else isExcludingLatin White_Space r.

End unicode.

(** ** strings *)

Module gostrings.
Import GoString.

(** [strings.indexFunc]: the loop [for i, r := range s] decodes the rune at
    byte offset [i] and advances by its width.  [fuel] bounds the number of
    iterations; [len(s) - i] iterations suffice ([indexFunc_loop_fuel]). *)
Fixpoint indexFunc_loop (fuel : nat) (s : string) (f : Z -> bool)
    (truth : bool) (i : Z) : Z :=
  match fuel with
  | O => -1
  | S fuel' =>
      if i <? len s then
        let '(r, w) := utf8.DecodeRuneInString (bytes (slice s i (len s))) in
        if Bool.eqb (f r) truth then i
        else indexFunc_loop fuel' s f truth (i + w)
      else -1
  end.

Definition indexFunc (s : string) (f : Z -> bool) (truth : bool) : Z :=
  indexFunc_loop (String.length s) s f truth 0.

(** [strings.lastIndexFunc]:
    [for i := len(s); i > 0; { r, size := DecodeLastRuneInString(s[0:i]);
    i -= size; if f(r) == truth { return i } }; return -1]. *)
Fixpoint lastIndexFunc_loop (fuel : nat) (s : string) (f : Z -> bool)
    (truth : bool) (i : Z) : Z :=
  match fuel with
  | O => -1
  | S fuel' =>
      if i >? 0 then
        let '(r, size) := utf8.DecodeLastRuneInString (bytes (slice s 0 i)) in
        let i := i - size in
        if Bool.eqb (f r) truth then i
        else lastIndexFunc_loop fuel' s f truth i
      else -1
  end.

Definition lastIndexFunc (s : string) (f : Z -> bool) (truth : bool) : Z :=
  lastIndexFunc_loop (String.length s) s f truth (len s).

(** [strings.TrimLeftFunc] *)
Definition TrimLeftFunc (s : string) (f : Z -> bool) : string :=
  let i := indexFunc s f false in
  if i =? -1 then "" else slice s i (len s).

(** [strings.TrimRightFunc] *)
Definition TrimRightFunc (s : string) (f : Z -> bool) : string :=
  let i := lastIndexFunc s f false in
  let i :=
    if (i >=? 0) && (at_ (bytes s) i >=? utf8.RuneSelf) then
      let '(_, wid) := utf8.DecodeRuneInString (bytes (slice s i (len s))) in
      i + wid
    else i + 1 in
  slice s 0 i.

(** [strings.TrimFunc] *)
Definition TrimFunc (s : string) (f : Z -> bool) : string :=
  TrimRightFunc (TrimLeftFunc s f) f.

(** [strings.TrimSpace]: all leading and trailing white space removed, as
    defined by Unicode. *)
Definition TrimSpace (s : string) : string := TrimFunc s unicode.IsSpace.

End gostrings.

(** ** net/textproto and net/http *)

Module http.
Import GoString.

(** [textproto.validHeaderFieldByte]: the token characters of RFC 7230. *)
Definition validHeaderFieldByte (c : ascii) : bool :=
  let n := byteval c in
  ((0x30 <=? n) && (n <=? 0x39)) || ((0x41 <=? n) && (n <=? 0x5A))
  || ((0x61 <=? n) && (n <=? 0x7A))
  || existsb (Z.eqb n)
       [0x21; 0x23; 0x24; 0x25; 0x26; 0x27; 0x2A; 0x2B; 0x2D; 0x2E; 0x5E;
        0x5F; 0x60; 0x7C; 0x7E].

Definition toLower : N := 32.

(** The rewriting loop of [textproto.canonicalMIMEHeaderKey]: upper case
    for the first letter and after each dash, lower case elsewhere. *)
Fixpoint canonical (upper : bool) (a : string) : string :=
  match a with
  | EmptyString => EmptyString
  | String c rest =>
      let n := byteval c in
      let c' :=
        if upper && (0x61 <=? n) && (n <=? 0x7A)
        then ascii_of_N (N_of_ascii c - toLower)
        else if negb upper && (0x41 <=? n) && (n <=? 0x5A)
        then ascii_of_N (N_of_ascii c + toLower)
        else c in
      String c' (canonical (Ascii.eqb c' "-") rest)
  end.

(** [textproto.CanonicalMIMEHeaderKey]: a key with a byte that is not a
    token character is returned unchanged. *)
Definition CanonicalMIMEHeaderKey (s : string) : string :=
  if forallb validHeaderFieldByte (list_ascii_of_string s)
  then canonical true s else s.

(** [http.Header] is [map[string][]string]. *)
Abbreviation Header := (gmap string (list string)).

(** [Header.Get]: the first value associated with the key, [""] if there
    is none. *)
Definition Get (h : Header) (key : string) : string :=
  match h !! CanonicalMIMEHeaderKey key with
  | Some (v :: _) => v
  | _ => ""
  end.

(** [url.URL].  The program uses a URL in two ways: the server routes on
    the decoded path [Path], and the handlers print the URL with [%s], which
    calls the method [String] of [url.URL].  [String] reassembles the URL
    from fields the program never reads (scheme, host, the path as it was
    escaped on the wire, a forced or raw query, a fragment), so its result
    is not a function of [Path]; the record carries it as it is, in
    [printed]. *)
Record URL := { Path : string; printed : string }.

(** The method [String] of [url.URL]. *)
Definition URL_String (u : URL) : string := printed u.

(** A request body as a reader: the bytes that reading it to the end
    yields, and the error (if any) that ended the reading. *)
Record Body := { data : string; err : option string }.

(** [http.Request], the fields this program uses. *)
Record Request := {
  Method : string;
  url : URL;
  RemoteAddr : string;
  header : Header;
  body : Body
}.

Definition StatusOK : Z := 200.
Definition StatusUnauthorized : Z := 401.

(** The state of a [http.ResponseWriter]: whether the header was written,
    the status code and the bytes of the body written so far. *)
Record response := {
  wroteHeader : bool;
  status : Z;
  written : string
}.

Definition newResponse : response :=
  {| wroteHeader := false; status := 0; written := "" |}.

(** [ResponseWriter.WriteHeader]: only the first call counts. *)
Definition response_WriteHeader (code : Z) (w : response) : response :=
  if wroteHeader w then w
  else {| wroteHeader := true; status := code; written := written w |}.

(** [ResponseWriter.Write]: an implicit [WriteHeader(StatusOK)] first. *)
Definition response_Write (p : string) (w : response) : response :=
  let w := response_WriteHeader StatusOK w in
  {| wroteHeader := wroteHeader w; status := status w;
     written := written w ++ p |}.

(** When the handler returns, the server completes the response:
    a handler that wrote nothing answers [200 OK]. *)
Definition finishRequest (w : response) : response :=
  response_WriteHeader StatusOK w.

End http.

(** ** Package apiutils

    The package is imported by [main.go]; its sources are not part of this
    development.  [main.go] uses the value returned by [GetEvents] only
    through its field [Events], and calls [ImpactedDeployments] and
    [StopRollout] for their effect. *)

Module apiutils.

(** Modelled from the spec: the type of a decoded push event, which is
    declared in package apiutils (section 3, PushEvent: registry origin,
    repository, tag or digest). *)
Inductive Reference := Tag (t : string) | Digest (d : string).

Record Event := {
  registryOrigin : string;
  repository : string;
  reference : Reference
}.

(** The value returned by [GetEvents]: [main.go] ranges over its field
    [Events]. *)
Record Events := { Events_ : list Event }.

(** Modelled from the spec: one record of the registry's notification
    envelope (section 6: action, target repository, tag or digest, and the
    notification's declared origin). *)
Record Record_ := {
  action : string;
  origin : string;
  target_repository : string;
  target_reference : Reference
}.

Section Decoder.
(** The parser of the envelope is not specified; [None] stands for a
    body that is not an envelope. *)
Variable parseEnvelope : string -> option (list Record_).

Definition isPush (r : Record_) : bool :=
  String.eqb (action r) "push" || String.eqb (action r) "create".

Definition toEvent (registryOverride : string) (r : Record_) : Event :=
  {| registryOrigin :=
       if String.eqb registryOverride "" then origin r
       else registryOverride;
     repository := target_repository r;
     reference := target_reference r |}.

(** Modelled from the spec: the Event Decoder of section 4.2, which is
    apiutils.GetEvents.  It keeps the push and create records, takes the
    registry origin from [registryOverride] when the caller supplies one,
    and fails on a malformed envelope as a whole. *)
Definition decode (rawBody registryOverride : string)
  : option (list Event) :=
  match parseEnvelope rawBody with
  | None => None
  | Some records => Some (toEvent registryOverride <$> filter isPush records)
  end.

(** Modelled from the spec: [GetEvents] returns events only, so a failed
    decoding shows as a value without events. *)
Definition GetEvents_spec (c registry : string) : Events :=
  {| Events_ := default [] (decode c registry) |}.
End Decoder.

End apiutils.

(** ** Effects of a handler

    A handler acts on its [http.ResponseWriter] and on the rest of the
    process: it prints log lines, reads the request body and calls into
    package apiutils.  The effects outside the response are recorded in
    program order. *)

Inductive Effect :=
| Log (line : string)                           (* log.Printf, log.Println *)
| ReadBody                                      (* ioutil.ReadAll(r.Body) *)
| CallGetEvents (c registry : string)           (* apiutils.GetEvents *)
| CallImpactedDeployments (e : apiutils.Event). (* apiutils.ImpactedDeployments *)

Record World := {
  w : http.response;
  trace : list Effect
}.

Definition M (A : Type) : Type := World -> A * World.

Definition ret {A} (a : A) : M A := fun st => (a, st).

Definition bind {A B} (m : M A) (k : A -> M B) : M B :=
  fun st => let '(a, st') := m st in k a st'.

Declare Scope go_scope.
Delimit Scope go_scope with go.
Notation "x <- m ;; k" := (bind m (fun x => k))
  (at level 100, m at next level, right associativity) : go_scope.
Notation "m ;;; k" := (bind m (fun _ => k))
  (at level 100, right associativity) : go_scope.

Definition emit (e : Effect) : M unit :=
  fun st => (tt, {| w := w st; trace := trace st ++ [e] |}).

Definition onResponse (f : http.response -> http.response) : M unit :=
  fun st => (tt, {| w := f (w st); trace := trace st |}).

Definition WriteHeader (code : Z) : M unit :=
  onResponse (http.response_WriteHeader code).
Definition Write (p : string) : M unit := onResponse (http.response_Write p).

(** [ioutil.ReadAll(r.Body)]: the bytes read and the error that stopped the
    reading, if any. *)
Definition ReadAll (b : http.Body) : M (string * option string) :=
  (emit ReadBody ;;; ret (http.data b, http.err b))%go.

(** [for _, e := range l { body(e) }] *)
Fixpoint forRange {A} (l : list A) (body : A -> M unit) : M unit :=
  match l with
  | [] => ret tt
  | e :: l' => (body e ;;; forRange l' body)%go
  end.

(** The server runs a handler on a fresh response and completes the response
    when the handler returns. *)
Definition serve (handler : http.Request -> M unit) (r : http.Request) : World :=
  let st := snd (handler r {| w := http.newResponse; trace := [] |}) in
  {| w := http.finishRequest (w st); trace := trace st |}.

(** Readings of a trace: the events handed to
    [apiutils.ImpactedDeployments], the arguments of the calls of
    [apiutils.GetEvents], and whether the request body was read. *)
Definition dispatched (tr : list Effect) : list apiutils.Event :=
  omap (fun e => match e with CallImpactedDeployments ev => Some ev | _ => None end) tr.

Definition decoded (tr : list Effect) : list (string * string) :=
  omap (fun e => match e with CallGetEvents c reg => Some (c, reg) | _ => None end) tr.

Definition bodyRead (tr : list Effect) : bool :=
  existsb (fun e => match e with ReadBody => true | _ => false end) tr.

(** A status code of the 4xx class. *)
Definition is4xx (code : Z) : Prop := 400 <= code < 500.

(** * main.go *)

(** [type BadTokenError struct{}]: the only error value of the program;
    [checkToken] returns [nil] ([None]) or [&BadTokenError{}]. *)
Inductive error := BadTokenError.

Definition Error (b : error) : string :=
  match b with BadTokenError => "Bad Token" end.

Section Main.
Import GoString http.

(** The package-level variables read by the handlers; [main] sets them
    before the server starts. *)
Variable TOKEN : string.
Variable Verbose : bool.                 (* apiutils.Verbose *)

(** [apiutils.GetEvents]. *)
Variable GetEvents : string -> string -> apiutils.Events.

Definition checkToken (r : Request) : option error :=
  if String.eqb TOKEN "" then
    (* no token provided in environment or flags, no problem ! *)
    None
  else
  let token := gostrings.TrimSpace (Get (header r) "X-Argoos-Token") in
  if GoString.len token <? 1 then Some BadTokenError
  else if negb (String.eqb token TOKEN) then Some BadTokenError
  else None.

Definition apiutils_GetEvents (c registry : string) : M apiutils.Events :=
  (emit (CallGetEvents c registry) ;;; ret (GetEvents c registry))%go.

Definition apiutils_ImpactedDeployments (e : apiutils.Event) : M unit :=
  emit (CallImpactedDeployments e).

(** Action is sent each time the registry sends an event. *)
Definition Action (r : Request) : M unit :=
  match checkToken r with
  | Some err =>
      (emit (Log (RemoteAddr r ++ " " ++ Method r ++ " " ++ URL_String (url r)
                  ++ " ERROR::" ++ Error err ++ LF)) ;;;
       WriteHeader StatusUnauthorized ;;;
       Write (Error err))%go
  | None =>
      (emit (Log (RemoteAddr r ++ " " ++ Method r ++ " " ++ URL_String (url r)
                  ++ LF)) ;;;
       cerr <- ReadAll (body r) ;;
       let c := fst cerr in
       let registry := Get (header r) "X-Argoos-Registry-Name" in
       (if Verbose then emit (Log ("Registry override: " ++ registry ++ LF))
        else ret tt) ;;;
       events <- apiutils_GetEvents c registry ;;
       forRange (apiutils.Events_ events) apiutils_ImpactedDeployments)%go
  end.

(** Health return always "ok" with 200 OK. Usefull to check liveness. *)
Definition Health (r : Request) : M unit :=
  (emit (Log (RemoteAddr r ++ " " ++ Method r ++ " " ++ URL_String (url r)
              ++ LF)) ;;;
   Write ("ok" ++ LF))%go.

(** The routes registered in [main]:
    [http.HandleFunc("/healthz", Health)] and
    [http.HandleFunc("/event", Action)].  Both patterns are fixed paths;
    [None] is any other path, which net/http answers itself. *)
Definition DefaultServeMux (path : string)
  : option (Request -> M unit) :=
  if String.eqb path "/healthz" then Some Health
  else if String.eqb path "/event" then Some Action
  else None.

(** One request through the server started by [http.ListenAndServe]. *)
Definition ServeHTTP (r : Request) : option World :=
  match DefaultServeMux (Path (url r)) with
  | Some handler => Some (serve handler r)
  | None => None
  end.

End Main.

(** The text common to the log lines of the handlers. *)
Definition accessLine (r : http.Request) : string :=
  http.RemoteAddr r ++ " " ++ http.Method r ++ " "
  ++ http.URL_String (http.url r).

(** The request [r] whose body is read to the end without error. *)
Definition withoutReadError (r : http.Request) : http.Request :=
  {| http.Method := http.Method r; http.url := http.url r;
     http.RemoteAddr := http.RemoteAddr r; http.header := http.header r;
     http.body := {| http.data := http.data (http.body r);
                     http.err := None |} |}.

(** [main], the part that sets [TOKEN]: the environment variable is
    trimmed, the value of the [-token] flag is not.  [env_TOKEN] is what
    [os.Getenv("TOKEN")] returns ([""] when unset); [flag_token] is the value
    of [-token] when the flag is on the command line. *)
Definition main_TOKEN (env_TOKEN : string) (flag_token : option string)
  : string :=
  let TOKEN := "" in
  let TOKEN :=
    if GoString.len env_TOKEN >? 0 then gostrings.TrimSpace env_TOKEN
    else TOKEN in
  (* flag.StringVar(&TOKEN, "token", TOKEN, ...); flag.Parse() *)
  match flag_token with
  | Some v => v
  | None => TOKEN
  end.

(** A string that consists only of white space: no rune of it is a
    non-space, [strings.IndexFunc(s, not IsSpace) == -1]. *)
Definition whitespaceOnly (s : string) : bool :=
  gostrings.indexFunc s unicode.IsSpace false =? -1.

(** ** The goroutine [sig]

    [sig] is straight-line code around two blocking points: the receive on
    the channel and the call of [apiutils.StopRollout].  It is modelled as a
    labelled transition system over its program points. *)

Module Sig.

Inductive Signal := Interrupt | Kill.          (* os.Interrupt, os.Kill *)

(** [Signal.String()] as [log.Println] prints it. *)
Definition Signal_String (s : Signal) : string :=
  match s with Interrupt => "interrupt" | Kill => "killed" end.

Inductive Label :=
| Notify (s : Signal)            (* signal.Notify(c, s) *)
| Recv (s : Signal)              (* s := <-c *)
| CallStopRollout                (* apiutils.StopRollout() is entered *)
| RetStopRollout                 (* apiutils.StopRollout() returns *)
| Println (line : string)        (* log.Println *)
| Exit (code : Z).               (* os.Exit *)

Inductive pc :=
| AtNotify                       (* line 31-32 *)
| AtRecv                         (* line 35, blocked on the channel *)
| AtStopRollout (s : Signal)     (* line 36, before the call *)
| InStopRollout (s : Signal)     (* line 36, inside the call *)
| AtPrintln (s : Signal)         (* line 37 *)
| AtExit (s : Signal)            (* line 38 *)
| Exited (code : Z).             (* the process has exited *)

(** One step of [sig].  Only [os.Interrupt] is registered with
    [signal.Notify], so only it arrives on the channel. *)
Inductive step : pc -> Label -> pc -> Prop :=
| step_notify : step AtNotify (Notify Interrupt) AtRecv
| step_recv : step AtRecv (Recv Interrupt) (AtStopRollout Interrupt)
| step_call s : step (AtStopRollout s) CallStopRollout (InStopRollout s)
| step_ret s : step (InStopRollout s) RetStopRollout (AtPrintln s)
| step_println s :
    step (AtPrintln s)
         (Println ("Got signal " ++ Signal_String s ++ GoString.LF))
         (AtExit s)
| step_exit s : step (AtExit s) (Exit 0) (Exited 0).

(** Runs of [sig], with the labels in program order. *)
Inductive steps : pc -> list Label -> pc -> Prop :=
| steps_nil p : steps p [] p
| steps_cons p l p' ls p'' :
    step p l p' -> steps p' ls p'' -> steps p (l :: ls) p''.

(** What a run from the receive to the exit of the process prints and
    calls. *)
Definition interrupt_run : list Label :=
  [ Recv Interrupt; CallStopRollout; RetStopRollout;
    Println ("Got signal interrupt" ++ GoString.LF); Exit 0 ].

(** [l1] occurs before [l2] in a run. *)
Definition before (l1 l2 : Label) (run : list Label) : Prop :=
  exists pre mid post, run = pre ++ l1 :: mid ++ l2 :: post.

End Sig.

(** ** The rollout controller behind [apiutils.ImpactedDeployments]

    [main.go] calls [apiutils.ImpactedDeployments(e)] as a statement: the
    function returns nothing, so whatever fails inside it is not visible to
    the loop of [Action].  What the call does is decided in package
    apiutils, whose sources are not part of this development. *)

Module rollout.

(** Modelled from the spec: an image reference of a workload (section 3,
    WorkloadSpec.imageReferences), as the two things section 4.3 compares:
    the repository it names and its tag, or the digest it resolves to. *)
Record ImageReference := {
  image_repository : string;
  image_reference : apiutils.Reference
}.

(** Modelled from the spec: WorkloadSpec (section 3), declared in package
    apiutils. *)
Record WorkloadSpec := {
  id : string;
  imageReferences : list ImageReference;
  currentRevision : string
}.

(** Modelled from the spec: RolloutRequest (section 3), one pending
    trigger. *)
Record RolloutRequest := {
  workloadId : string;
  reason : apiutils.Event
}.

(** Modelled from the spec: the state of the Rollout Controller (sections 3
    and 4.4): the snapshot of the workloads, the requests in flight (created
    by a trigger, destroyed when the patch call to the cluster returns) and
    the workloads whose patch call has returned. *)
Record Controller := {
  snapshot : list WorkloadSpec;
  inFlight : list RolloutRequest;
  finished : list string
}.

Definition sameReference (a b : apiutils.Reference) : bool :=
  match a, b with
  | apiutils.Tag t, apiutils.Tag t' => String.eqb t t'
  | apiutils.Digest d, apiutils.Digest d' => String.eqb d d'
  | _, _ => false
  end.

(** Modelled from the spec: section 4.3, a workload is impacted if one of
    its image references names the repository of the event and has the tag
    of the event, or resolves to the digest the event carries. *)
Definition impacted (e : apiutils.Event) (wl : WorkloadSpec) : bool :=
  existsb
    (fun ref =>
       String.eqb (image_repository ref) (apiutils.repository e)
       && sameReference (image_reference ref) (apiutils.reference e))
    (imageReferences wl).

(** Modelled from the spec: the Impact Resolver of section 4.3, which
    reads the snapshot only. *)
Definition resolve (snap : list WorkloadSpec) (e : apiutils.Event)
  : list string :=
  id <$> List.filter (impacted e) snap.

Definition isInFlight (wid : string) (c : Controller) : bool :=
  existsb (fun req => String.eqb (workloadId req) wid) (inFlight c).

(** Modelled from the spec: [trigger] of section 4.4.  It requests a rolling
    update and returns; a request for a workload that has one in flight is
    coalesced.  How many patch calls run at a time is the business of the
    controller and does not show here. *)
Definition trigger (wid : string) (why : apiutils.Event) (c : Controller)
  : Controller :=
  if isInFlight wid c then c
  else {| snapshot := snapshot c;
          inFlight := inFlight c ++ [{| workloadId := wid; reason := why |}];
          finished := finished c |}.

(** Modelled from the spec: the end of a rollout (section 3, lifecycle of a
    RolloutRequest): the patch call returns, in the background task of the
    controller, and the request is destroyed. *)
Definition patchReturns (wid : string) (c : Controller) : Controller :=
  {| snapshot := snapshot c;
     inFlight :=
       List.filter (fun req => negb (String.eqb (workloadId req) wid))
         (inFlight c);
     finished := finished c ++ [wid] |}.

(** Modelled from the spec: [apiutils.ImpactedDeployments], that is
    resolution and trigger for one event (section 4.5).  [fails e] says that
    resolution or trigger fails for [e] (section 7, PartialBatchFailure):
    the failure is logged and the event abandoned. *)
Definition ImpactedDeployments_spec (fails : apiutils.Event -> bool)
    (e : apiutils.Event) (c : Controller) : Controller :=
  if fails e then c
  else foldl (fun c wid => trigger wid e c) c (resolve (snapshot c) e).

(** The controller after the calls of a trace, in program order. *)
Fixpoint replay (fails : apiutils.Event -> bool) (tr : list Effect)
    (c : Controller) : Controller :=
  match tr with
  | [] => c
  | CallImpactedDeployments e :: tr' =>
      replay fails tr' (ImpactedDeployments_spec fails e c)
  | _ :: tr' => replay fails tr' c
  end.

(** The workloads with a request in flight. *)
Definition pending (c : Controller) : list string :=
  workloadId <$> inFlight c.

(** A controller that has only taken requests since [c0]: same snapshot, no
    patch call returned, the requests of [c0] still in flight. *)
Definition extends (c0 c : Controller) : Prop :=
  snapshot c = snapshot c0 /\ finished c = finished c0 /\
  exists requested, inFlight c = inFlight c0 ++ requested.

End rollout.

(** ** Sample requests *)

Module Samples.
Import http.

Definition noEvents : string -> string -> apiutils.Events :=
  fun _ _ => {| apiutils.Events_ := [] |}.

(** A parser for which the body is not an envelope. *)
Definition rejectAll : string -> option (list apiutils.Record_) :=
  fun _ => None.

Definition pushRecord : apiutils.Record_ :=
  {| apiutils.action := "push"; apiutils.origin := "registry.local:5000";
     apiutils.target_repository := "app";
     apiutils.target_reference := apiutils.Tag "v2" |}.

Definition pullRecord : apiutils.Record_ :=
  {| apiutils.action := "pull"; apiutils.origin := "registry.local:5000";
     apiutils.target_repository := "app";
     apiutils.target_reference := apiutils.Tag "v1" |}.

(** A parser that finds one push and one pull record in every body. *)
Definition twoRecords : string -> option (list apiutils.Record_) :=
  fun _ => Some [pushRecord; pullRecord].

(** A request whose target is a plain path, which prints as it is. *)
Definition mkRequest (method path : string) (h : Header) (b : Body)
  : Request :=
  {| Method := method; url := {| Path := path; printed := path |};
     RemoteAddr := "10.0.0.7:41000"; header := h; body := b |}.

Definition postEvent (h : Header) (payload : string) : Request :=
  mkRequest "POST" "/event" h {| data := payload; err := None |}.

Definition pushDb : apiutils.Record_ :=
  {| apiutils.action := "push"; apiutils.origin := "registry.local:5000";
     apiutils.target_repository := "db";
     apiutils.target_reference := apiutils.Tag "v7" |}.

Definition pushWeb : apiutils.Record_ :=
  {| apiutils.action := "create"; apiutils.origin := "registry.local:5000";
     apiutils.target_repository := "web";
     apiutils.target_reference := apiutils.Digest "sha256:0a1b" |}.

(** A parser that finds three push records in every body. *)
Definition threePushes : string -> option (list apiutils.Record_) :=
  fun _ => Some [pushDb; pushRecord; pushWeb].

(** A cluster with one workload for each of the three repositories, and one
    rollout in flight. *)
Definition cluster : rollout.Controller :=
  {| rollout.snapshot :=
       [ {| rollout.id := "ns/app";
            rollout.imageReferences :=
              [{| rollout.image_repository := "app";
                  rollout.image_reference := apiutils.Tag "v2" |}];
            rollout.currentRevision := "41" |};
         {| rollout.id := "ns/db";
            rollout.imageReferences :=
              [{| rollout.image_repository := "db";
                  rollout.image_reference := apiutils.Tag "v7" |}];
            rollout.currentRevision := "7" |};
         {| rollout.id := "ns/web";
            rollout.imageReferences :=
              [{| rollout.image_repository := "web";
                  rollout.image_reference := apiutils.Digest "sha256:0a1b" |}];
            rollout.currentRevision := "3" |} ];
     rollout.inFlight :=
       [{| rollout.workloadId := "ns/cron";
           rollout.reason := apiutils.toEvent "" pushRecord |}];
     rollout.finished := ["ns/old"] |}.

(** Resolution fails for the events of repository db. *)
Definition failsDb (e : apiutils.Event) : bool :=
  String.eqb (apiutils.repository e) "db".

(** The same, with a body whose reading stops on an error. *)
Definition postEventBroken (h : Header) (payload : string) : Request :=
  mkRequest "POST" "/event" h
    {| data := payload; err := Some "unexpected EOF" |}.

Definition getHealthz : Request :=
  mkRequest "GET" "/healthz" ∅ {| data := ""; err := None |}.

Definition withToken (v : string) : Header := {[ "X-Argoos-Token" := [v] ]}.

End Samples.

(** ** strings.ToUpper *)

Module gostringsCase.
Import GoString.

(** ['a' <= c && c <= 'z'] *)
Definition isLower (c : ascii) : bool :=
  (0x61 <=? byteval c) && (byteval c <=? 0x7A).

(** [c -= 'a' - 'A'] for a lower-case letter, other bytes unchanged. *)
Definition upperByte (c : ascii) : ascii :=
  if isLower c then ascii_of_N (N_of_ascii c - 32) else c.

Fixpoint mapBytes (g : ascii -> ascii) (s : string) : string :=
  match s with
  | EmptyString => EmptyString
  | String c rest => String (g c) (mapBytes g rest)
  end.

(** No byte of [s] is [utf8.RuneSelf] or more. *)
Definition isASCII (s : string) : bool :=
  forallb (fun c => byteval c <? utf8.RuneSelf) (list_ascii_of_string s).

Definition hasLower (s : string) : bool :=
  existsb isLower (list_ascii_of_string s).

Section ToUpper.
(** [strings.Map(unicode.ToUpper, s)], which [ToUpper] falls back to on a
    string with a byte outside ASCII; it needs the case tables of package
    unicode, which are not reproduced here. *)
Variable Map_ToUpper : string -> string.

(** [strings.ToUpper] *)
Definition ToUpper (s : string) : string :=
  if isASCII s then
    if negb (hasLower s) then s else mapBytes upperByte s
  else Map_ToUpper s.
End ToUpper.

End gostringsCase.

(** ** [main]: settings and start-up *)

Module Main.
Import GoString.

(** [var VERSION = "master"] *)
Definition VERSION : string := "master".

(** The package-level variables of apiutils that [main] assigns.  Their
    initial values are declared in package apiutils. *)
Record Globals := {
  KubeMasterURL : string;
  InCluster : bool;
  SkipSSLVerification : bool;
  Verbose : bool;
  CAFile : string;
  CertFile : string;
  KeyFile : string
}.

(** What [flag.Parse] found on the command line: for each flag its value
    when the flag is given, [None] when it is not. *)
Record Flags := {
  flag_version : option bool;
  flag_incluster : option bool;
  flag_verbose : option bool;
  flag_master : option string;
  flag_skip_ssl_verification : option bool;
  flag_listen : option string;
  flag_ca_file : option string;
  flag_cert_file : option string;
  flag_key_file : option string;
  flag_server_cert : option string;
  flag_server_key : option string;
  flag_token : option string
}.

Definition noFlags : Flags :=
  {| flag_version := None; flag_incluster := None; flag_verbose := None;
     flag_master := None; flag_skip_ssl_verification := None;
     flag_listen := None; flag_ca_file := None; flag_cert_file := None;
     flag_key_file := None; flag_server_cert := None;
     flag_server_key := None; flag_token := None |}.

(** [os.Getenv]: the value of the variable, empty when it is not set. *)
Definition Getenv (env : gmap string string) (key : string) : string :=
  default "" (env !! key).

(** The variables of [main] and of the two packages after [flag.Parse]. *)
Record Settings := {
  host : string;
  servercert : string;
  serverkey : string;
  askedVersion : bool;
  token : string;                     (* TOKEN *)
  globals : Globals
}.

Section Settings.
Variable Map_ToUpper : string -> string.
Variable init : Globals.
Variable env : gmap string string.
Variable fl : Flags.

(** [switch strings.ToUpper(v) { case a, b, c: ... }] *)
Definition upperIn (v : string) (cases : list string) : bool :=
  existsb (String.eqb (gostringsCase.ToUpper Map_ToUpper v)) cases.

(** [if v := os.Getenv(key); len(v) > 0 { x = v }] *)
Definition envString (key : string) (x : string) : string :=
  let v := Getenv env key in if len v >? 0 then v else x.

(** [if v := os.Getenv(key); len(v) > 0 { switch strings.ToUpper(v) {
    case ...: x = b } }] *)
Definition envSwitch (key : string) (cases : list string) (b x : bool)
  : bool :=
  let v := Getenv env key in
  if len v >? 0 then (if upperIn v cases then b else x) else x.

(** [main] up to [flag.Parse()], lines 86 to 201. *)
Definition settings : Settings :=
  let host := ":3000" in
  let servercert := "" in
  let serverkey := "" in
  let askedVersion := false in
  let KubeMasterURL := envString "KUBE_MASTER_URL" (KubeMasterURL init) in
  let InCluster :=
    envSwitch "INCLUSTER" ["FALSE"; "NO"; "0"] false (InCluster init) in
  let SkipSSLVerification :=
    envSwitch "SKIP_SSL_VERIFICATION" ["FALSE"; "NO"; "0"] false
      (SkipSSLVerification init) in
  let Verbose := envSwitch "VERBOSE" ["TRUE"; "YES"; "1"] true (Verbose init) in
  let CAFile := envString "CA_FILE" (CAFile init) in
  let CertFile := envString "CERT_FILE" (CertFile init) in
  let KeyFile := envString "KEY_FILE" (KeyFile init) in
  let servercert := envString "SERVER_CERT" servercert in
  let serverkey := envString "SERVER_KEY" serverkey in
  let host := envString "LISTEN" host in
  (* the flags: each variable is the default of its flag *)
  {| host := default host (flag_listen fl);
     servercert := default servercert (flag_server_cert fl);
     serverkey := default serverkey (flag_server_key fl);
     askedVersion := default askedVersion (flag_version fl);
     token := main_TOKEN (Getenv env "TOKEN") (flag_token fl);
     globals :=
       {| KubeMasterURL := default KubeMasterURL (flag_master fl);
          InCluster := default InCluster (flag_incluster fl);
          SkipSSLVerification :=
            default SkipSSLVerification (flag_skip_ssl_verification fl);
          Verbose := default Verbose (flag_verbose fl);
          CAFile := default CAFile (flag_ca_file fl);
          CertFile := default CertFile (flag_cert_file fl);
          KeyFile := default KeyFile (flag_key_file fl) |} |}.
End Settings.

Inductive Handler := HealthHandler | ActionHandler.

(** What [main] does after [flag.Parse()], in program order. *)
Inductive Effect :=
| FmtPrintln (line : string)                  (* fmt.Println *)
| OsExit (code : Z)                           (* os.Exit *)
| ApiConfig (g : Globals)                     (* apiutils.Config() *)
| GoSig                                       (* go sig() *)
| StartRollout                                (* apiutils.StartRollout() *)
| LogPrintln (line : string)                  (* log.Println *)
| HandleFunc (pattern : string) (h : Handler) (* http.HandleFunc *)
| ListenAndServe (addr : string)
| ListenAndServeTLS (addr certFile keyFile : string)
| LogPrint (line : string).                   (* the printing of log.Fatal *)

(** [main] from line 203 to the call of the server, which returns only
    with an error. *)
Definition startup (st : Settings) : list Effect :=
  if askedVersion st then
    [FmtPrintln (VERSION ++ LF); OsExit 0]
  else
    [ApiConfig (globals st); GoSig; StartRollout;
     LogPrintln ("Starting" ++ LF);
     HandleFunc "/healthz" HealthHandler;
     HandleFunc "/event" ActionHandler;
     if (len (serverkey st) >? 0) && (len (servercert st) >? 0)
     then ListenAndServeTLS (host st) (servercert st) (serverkey st)
     else ListenAndServe (host st)].

(** [log.Fatal(err)] once the server has returned [err]: the error is
    printed and the process exits with status 1. *)
Definition fatal (err : string) : list Effect :=
  [LogPrint (err ++ LF); OsExit 1].

(** A whole run of [main]; [serverError] is the error the server returns
    with, [None] when it serves for ever. *)
Definition run (st : Settings) (serverError : option string) : list Effect :=
  startup st ++
  (if askedVersion st then []
   else match serverError with
        | Some err => fatal err
        | None => []
        end).

(** The handlers registered by a run, by pattern. *)
Definition registered (effects : list Effect) (path : string)
  : option Handler :=
  hd_error
    (omap (fun e => match e with
                    | HandleFunc pattern h =>
                        if String.eqb pattern path then Some h else None
                    | _ => None
                    end) effects).

End Main.

(** ** Requests and traces, for the statements about the handlers *)

(** [r.Header.Set(key, value)]: the request [r] with the header [key] set
    to the single value [value]. *)
Definition setHeader (key value : string) (r : http.Request) : http.Request :=
  {| http.Method := http.Method r; http.url := http.url r;
     http.RemoteAddr := http.RemoteAddr r;
     http.header := <[http.CanonicalMIMEHeaderKey key := [value]]> (http.header r);
     http.body := http.body r |}.

(** A trace without its log lines: the reading of the body and the calls
    into package apiutils. *)
Definition withoutLogs (tr : list Effect) : list Effect :=
  omap (fun e => match e with Log _ => None | _ => Some e end) tr.

(** The Go function behind a registered handler. *)
Definition handlerOf (TOKEN : string) (Verbose : bool)
    (GetEvents : string -> string -> apiutils.Events) (h : Main.Handler)
  : http.Request -> M unit :=
  match h with
  | Main.HealthHandler => Health
  | Main.ActionHandler => Action TOKEN Verbose GetEvents
  end.

(** Offsets inside a string, for the statements about trimming. *)
Module runes.
Import GoString.

(** A continuation byte of UTF-8. *)
Definition continuation (b : Z) : Prop := 0x80 <= b <= 0xBF.

(** The offsets where the backward loop of [lastIndexFunc] can stand: the
    end of the string or the first byte of a rune. *)
Definition boundary (u : list Z) (e : Z) : Prop :=
  e = Z.of_nat (length u) \/ ~ continuation (at_ u e).

(** The bookkeeping of [TrimRightFunc] after [lastIndexFunc]: from the
    offset [i] of the last rune kept to the end of that rune. *)
Definition endOfRune (u : list Z) (i : Z) : Z :=
  if (i >=? 0) && (at_ u i >=? utf8.RuneSelf)
  then i + snd (utf8.DecodeRuneInString (drop (Z.to_nat i) u))
  else i + 1.

End runes.

(** * Properties of the library model *)

Module GoStringFacts.
Import GoString.

Lemma substring_bytes (s : string) : forall n m : nat,
  list_ascii_of_string (String.substring n m s)
  = take m (drop n (list_ascii_of_string s)).
Proof.
  induction s as [|c s IH]; intros [|n] [|m]; simpl; try reflexivity.
  - f_equal. apply (IH 0%nat m).
  - apply IH.
  - apply IH.
Qed.

Lemma bytes_slice (s : string) (lo hi : Z) :
  bytes (slice s lo hi)
  = take (Z.to_nat (hi - lo)) (drop (Z.to_nat lo) (bytes s)).
Proof.
  unfold bytes, slice. rewrite substring_bytes.
  now rewrite fmap_take, fmap_drop.
Qed.

Lemma length_bytes (s : string) : length (bytes s) = String.length s.
Proof.
  unfold bytes. rewrite length_fmap.
  induction s; simpl; congruence.
Qed.

Lemma append_assoc (a b c : string) :
  String.append (String.append a b) c = String.append a (String.append b c).
Proof.
  induction a as [|x a IH]; [reflexivity|].
  change (String x (String.append (String.append a b) c)
          = String x (String.append a (String.append b c))).
  now f_equal.
Qed.

Lemma bytes_nil (s : string) : bytes s = [] -> s = EmptyString.
Proof. destruct s; [reflexivity | discriminate]. Qed.

Lemma slice_full (s : string) : slice s 0 (len s) = s.
Proof.
  unfold slice, len. rewrite Z.sub_0_r, Nat2Z.id.
  change (Z.to_nat 0) with 0%nat.
  induction s as [|c s IH]; simpl; [reflexivity | now rewrite IH].
Qed.

End GoStringFacts.

Module utf8Facts.
Import GoString utf8.

(** Every entry of [first] is one of the nine codes. *)
Lemma first_cases (b : Z) :
  first b = as_ \/ first b = xx \/ first b = s1 \/ first b = s2 \/
  first b = s3 \/ first b = s4 \/ first b = s5 \/ first b = s6 \/
  first b = s7.
Proof. unfold first. repeat case_match; tauto. Qed.

(** A decoded rune is at least one byte wide, at most [UTFMax]. *)
Lemma DecodeRuneInString_width (s : list Z) :
  s <> [] -> 1 <= snd (DecodeRuneInString s) <= UTFMax.
Proof.
  intros Hs. unfold DecodeRuneInString, UTFMax.
  destruct s as [|b0 t]; [congruence|].
  assert (Hn : (Z.of_nat (length (b0 :: t)) <? 1) = false)
    by (apply Z.ltb_ge; simpl length; lia).
  rewrite Hn. cbv zeta.
  repeat case_match; simpl; lia.
Qed.

Ltac bool_to_Z :=
  repeat match goal with
  | H : (_ <? _) = true |- _ => apply Z.ltb_lt in H
  | H : (_ <? _) = false |- _ => apply Z.ltb_ge in H
  | H : (_ <=? _) = true |- _ => apply Z.leb_le in H
  | H : (_ <=? _) = false |- _ => apply Z.leb_gt in H
  | H : (_ >=? _) = true |- _ => rewrite Z.geb_leb in H
  | H : (_ >=? _) = false |- _ => rewrite Z.geb_leb in H
  | H : (_ >? _) = true |- _ => rewrite Z.gtb_ltb in H
  | H : (_ >? _) = false |- _ => rewrite Z.gtb_ltb in H
  | H : (_ =? _) = true |- _ => apply Z.eqb_eq in H
  | H : (_ =? _) = false |- _ => apply Z.eqb_neq in H
  end.

(** Decoding a non-empty prefix of [s] either gives the first rune of [s]
    or, when the prefix cuts that rune, [RuneError]. *)
Lemma DecodeRuneInString_take (s : list Z) (j : nat) :
  (1 <= j)%nat ->
  DecodeRuneInString (take j s) = DecodeRuneInString s \/
  DecodeRuneInString (take j s) = (RuneError, 1).
Proof.
  intros Hj.
  destruct s as [|b0 [|b1 [|b2 [|b3 t]]]];
    destruct j as [|[|[|[|j]]]]; try lia; simpl take; auto.
  all: unfold DecodeRuneInString; simpl length.
  all: repeat match goal with
       | |- context [Z.of_nat (S (S (S (S (length ?l)))))] =>
           let n := fresh "n" in
           assert (4 <= Z.of_nat (S (S (S (S (length l)))))) by lia;
           generalize dependent (Z.of_nat (S (S (S (S (length l))))));
           intros n ?
       end.
  all: simpl Z.of_nat.
  all: change (at_ (?a :: _) 0) with a;
       change (at_ (_ :: ?a :: _) 1) with a;
       change (at_ (_ :: _ :: ?a :: _) 2) with a;
       change (at_ (_ :: _ :: _ :: ?a :: _) 3) with a.
  all: cbv zeta.
  all: destruct (first_cases b0) as [E|[E|[E|[E|[E|[E|[E|[E|E]]]]]]]];
       rewrite E; simpl; auto.
  all: repeat (case_match; auto).
  all: exfalso; unfold s1, s2, s3, s4, s5, s6, s7 in *; bool_to_Z;
       repeat match goal with
       | H : context [Z.land ?a 7] |- _ =>
           let v := eval vm_compute in (Z.land a 7) in
           change (Z.land a 7) with v in H
       end; lia.
Qed.

Lemma backup_le (fuel : nat) (s : list Z) (lim start : Z) :
  backup fuel s lim start <= start.
Proof.
  revert start. induction fuel as [|fuel IH]; intros start; simpl; [lia|].
  repeat case_match; try lia. specialize (IH (start - 1)). lia.
Qed.

Lemma DecodeLastRuneInString_width (s : list Z) :
  s <> [] -> 1 <= snd (DecodeLastRuneInString s) <= UTFMax.
Proof.
  intros Hs. unfold DecodeLastRuneInString.
  assert (Hlen : 1 <= Z.of_nat (length s))
    by (destruct s; [congruence | simpl length; lia]).
  set (e := Z.of_nat (length s)) in *.
  destruct (e =? 0) eqn:He; [bool_to_Z; lia|].
  destruct (at_ s (e - 1) <? RuneSelf); [unfold UTFMax; simpl; lia|].
  set (lim := if e - UTFMax <? 0 then 0 else e - UTFMax).
  pose proof (backup_le (Z.to_nat UTFMax) s lim (e - 1 - 1)) as Hb.
  set (st0 := backup (Z.to_nat UTFMax) s lim (e - 1 - 1)) in *.
  set (st := if st0 <? 0 then 0 else st0).
  assert (Hst : 0 <= st < e) by (subst st; case_match; bool_to_Z; lia).
  assert (Hne : drop (Z.to_nat st) s <> []).
  { intros Hnil. apply (f_equal (@length Z)) in Hnil.
    rewrite length_drop in Hnil. simpl in Hnil. subst e. lia. }
  pose proof (DecodeRuneInString_width _ Hne) as Hw.
  destruct (DecodeRuneInString (drop (Z.to_nat st) s)) as [r size].
  simpl in Hw. case_match; simpl; unfold UTFMax in *; lia.
Qed.

End utf8Facts.

Module gostringsFacts.
Import GoString GoStringFacts utf8Facts gostrings.

Section Loops.
Variables (s : string) (f : Z -> bool) (truth : bool).

(** The suffix [s[i:]] of a string is non-empty for [i] inside it. *)
Lemma suffix_nonempty (i : Z) :
  0 <= i < len s -> bytes (slice s i (len s)) <> [].
Proof.
  intros Hi Hnil. apply (f_equal (@length Z)) in Hnil.
  rewrite bytes_slice, length_take, length_drop, length_bytes in Hnil.
  unfold len in *. simpl in Hnil. lia.
Qed.

(** The prefix [s[0:i]] of a string is non-empty for [0 < i <= len(s)]. *)
Lemma prefix_nonempty (i : Z) :
  0 < i <= len s -> bytes (slice s 0 i) <> [].
Proof.
  intros Hi Hnil. apply (f_equal (@length Z)) in Hnil.
  rewrite bytes_slice, length_take, length_drop, length_bytes in Hnil.
  unfold len in *. simpl in Hnil. lia.
Qed.

(** When [indexFunc] finds an offset, the rune decoded there satisfies
    [f(r) == truth]. *)
Lemma indexFunc_loop_found (fuel : nat) : forall i : Z,
  0 <= i ->
  indexFunc_loop fuel s f truth i <> -1 ->
  let r := indexFunc_loop fuel s f truth i in
  i <= r < len s /\
  f (fst (utf8.DecodeRuneInString (bytes (slice s r (len s))))) = truth.
Proof.
  induction fuel as [|fuel IH]; intros i Hi; simpl; [congruence|].
  destruct (i <? len s) eqn:Hlt; [|congruence].
  bool_to_Z.
  pose proof (DecodeRuneInString_width _ (suffix_nonempty i (conj Hi Hlt)))
    as Hw.
  destruct (utf8.DecodeRuneInString (bytes (slice s i (len s))))
    as [r w] eqn:Hd.
  simpl in Hw.
  destruct (Bool.eqb (f r) truth) eqn:Hf.
  - intros _. split; [lia|]. rewrite Hd. simpl.
    now apply Bool.eqb_prop.
  - intros Hne. destruct (IH (i + w) ltac:(lia) Hne) as [Hr Hfr].
    split; [lia | exact Hfr].
Qed.

(** [len(s) - i] iterations are enough: more fuel changes nothing. *)
Lemma indexFunc_loop_fuel (fuel : nat) : forall (fuel' : nat) (i : Z),
  0 <= i ->
  len s - i <= Z.of_nat fuel -> len s - i <= Z.of_nat fuel' ->
  indexFunc_loop fuel s f truth i = indexFunc_loop fuel' s f truth i.
Proof.
  induction fuel as [|fuel IH]; intros fuel' i Hi H1 H2.
  - destruct fuel'; simpl; [reflexivity|].
    destruct (i <? len s) eqn:Hlt; [bool_to_Z; lia | reflexivity].
  - destruct fuel' as [|fuel']; simpl.
    + destruct (i <? len s) eqn:Hlt; [bool_to_Z; lia | reflexivity].
    + destruct (i <? len s) eqn:Hlt; [|reflexivity].
      bool_to_Z.
      pose proof (DecodeRuneInString_width _
                    (suffix_nonempty i (conj Hi Hlt))) as Hw.
      destruct (utf8.DecodeRuneInString (bytes (slice s i (len s))))
        as [r w].
      simpl in Hw. destruct (Bool.eqb (f r) truth); [reflexivity|].
      apply IH; lia.
Qed.

Lemma lastIndexFunc_loop_fuel (fuel : nat) : forall (fuel' : nat) (i : Z),
  i <= len s ->
  i <= Z.of_nat fuel -> i <= Z.of_nat fuel' ->
  lastIndexFunc_loop fuel s f truth i
  = lastIndexFunc_loop fuel' s f truth i.
Proof.
  induction fuel as [|fuel IH]; intros fuel' i Hi H1 H2.
  - destruct fuel'; simpl; [reflexivity|].
    destruct (i >? 0) eqn:Hlt; [bool_to_Z; lia | reflexivity].
  - destruct fuel' as [|fuel']; simpl.
    + destruct (i >? 0) eqn:Hlt; [bool_to_Z; lia | reflexivity].
    + destruct (i >? 0) eqn:Hlt; [|reflexivity].
      bool_to_Z.
      pose proof (DecodeLastRuneInString_width _
                    (prefix_nonempty i (conj Hlt Hi))) as Hw.
      destruct (utf8.DecodeLastRuneInString (bytes (slice s 0 i)))
        as [r w].
      simpl in Hw. destruct (Bool.eqb (f r) truth); [reflexivity|].
      apply IH; lia.
Qed.

End Loops.

(** What [TrimLeftFunc] returns is empty or starts with a rune on which
    [f] is false. *)
Lemma TrimLeftFunc_head (s : string) (f : Z -> bool) :
  TrimLeftFunc s f = "" \/
  f (fst (utf8.DecodeRuneInString (bytes (TrimLeftFunc s f)))) = false.
Proof.
  unfold TrimLeftFunc, indexFunc.
  destruct (indexFunc_loop (String.length s) s f false 0 =? -1) eqn:Hi;
    [now left | right].
  bool_to_Z.
  now destruct (indexFunc_loop_found s f false _ 0 ltac:(lia) Hi).
Qed.

(** [TrimRightFunc] returns a prefix of its argument. *)
Lemma TrimRightFunc_prefix (s : string) (f : Z -> bool) :
  exists j : nat, bytes (TrimRightFunc s f) = take j (bytes s).
Proof.
  unfold TrimRightFunc.
  match goal with |- context [slice s 0 ?i] => exists (Z.to_nat (i - 0)) end.
  now rewrite bytes_slice.
Qed.

(** What [TrimFunc] returns is empty or starts with a rune on which [f]
    is false, provided [f] is false on [RuneError]. *)
Lemma TrimFunc_head (s : string) (f : Z -> bool) :
  f utf8.RuneError = false ->
  TrimFunc s f = "" \/
  f (fst (utf8.DecodeRuneInString (bytes (TrimFunc s f)))) = false.
Proof.
  intros Herr. unfold TrimFunc.
  destruct (TrimRightFunc_prefix (TrimLeftFunc s f) f) as [j Hj].
  destruct (TrimLeftFunc_head s f) as [Hl|Hl].
  - left. apply bytes_nil. rewrite Hj, Hl. now destruct j.
  - destruct j as [|j].
    + left. apply bytes_nil. now rewrite Hj.
    + right. rewrite Hj.
      destruct (DecodeRuneInString_take (bytes (TrimLeftFunc s f)) (S j)
                  ltac:(lia)) as [->| ->]; [exact Hl | exact Herr].
Qed.

Lemma TrimSpace_head (s : string) :
  TrimSpace s = "" \/
  unicode.IsSpace
    (fst (utf8.DecodeRuneInString (bytes (TrimSpace s)))) = false.
Proof. apply TrimFunc_head. reflexivity. Qed.

Lemma TrimSpace_empty : TrimSpace "" = "".
Proof. reflexivity. Qed.

(** The loops are run with as many iterations as the string has bytes; any
    larger number gives the same result. *)
Lemma indexFunc_fuel (s : string) (f : Z -> bool) (truth : bool) (fuel : nat) :
  (String.length s <= fuel)%nat ->
  indexFunc_loop fuel s f truth 0 = indexFunc s f truth.
Proof.
  intros Hfuel. unfold indexFunc.
  apply indexFunc_loop_fuel; unfold len; lia.
Qed.

Lemma lastIndexFunc_fuel (s : string) (f : Z -> bool) (truth : bool)
    (fuel : nat) :
  (String.length s <= fuel)%nat ->
  lastIndexFunc_loop fuel s f truth (len s) = lastIndexFunc s f truth.
Proof.
  intros Hfuel. unfold lastIndexFunc.
  apply lastIndexFunc_loop_fuel; unfold len; lia.
Qed.

(** [TrimSpace] on sample inputs: ASCII white space, a no-break space
    (C2 A0) and an em space (E2 80 83), a stray continuation byte, which is
    no white space, and a string of white space only. *)
Example TrimSpace_ascii :
  TrimSpace (ofBytes [0x20; 0x09; 0x61; 0x20; 0x62; 0x0D; 0x0A]%N) = "a b".
Proof. reflexivity. Qed.

Example TrimSpace_unicode :
  TrimSpace (ofBytes [0xC2; 0xA0; 0x61; 0xE2; 0x80; 0x83]%N) = "a".
Proof. reflexivity. Qed.

Example TrimSpace_invalid :
  bytes (TrimSpace (ofBytes [0x20; 0x80; 0xE2; 0x80; 0x83; 0x80; 0x20]%N))
  = [0x80; 0xE2; 0x80; 0x83; 0x80].
Proof. reflexivity. Qed.

Example TrimSpace_blank : TrimSpace "    " = "".
Proof. reflexivity. Qed.

Example whitespaceOnly_blank :
  whitespaceOnly (ofBytes [0x20; 0x09; 0xC2; 0xA0]%N) = true.
Proof. reflexivity. Qed.

Example whitespaceOnly_word : whitespaceOnly " a " = false.
Proof. reflexivity. Qed.

End gostringsFacts.


(** * The token check *)

Module checkTokenFacts.
Import GoString GoStringFacts utf8Facts gostrings gostringsFacts http.

Lemma token_key_canonical :
  CanonicalMIMEHeaderKey "X-Argoos-Token" = "X-Argoos-Token".
Proof. reflexivity. Qed.

Lemma registry_key_canonical :
  CanonicalMIMEHeaderKey "X-Argoos-Registry-Name" = "X-Argoos-Registry-Name".
Proof. reflexivity. Qed.

(** A request without the header: [Get] returns the empty string. *)
Lemma Get_missing (h : Header) :
  h !! "X-Argoos-Token" = None -> Get h "X-Argoos-Token" = "".
Proof. unfold Get. rewrite token_key_canonical. now intros ->. Qed.

Lemma len_lt_1 (s : string) : (len s <? 1) = true <-> s = "".
Proof.
  unfold len. destruct s; simpl String.length.
  - split; [reflexivity | intros _; reflexivity].
  - split; [intros H; bool_to_Z; lia | discriminate].
Qed.

(** [checkToken] with authentication enabled, as a function of the trimmed
    header value. *)
Lemma checkToken_enabled (TOKEN : string) (r : Request) :
  TOKEN <> "" ->
  checkToken TOKEN r =
    let token := TrimSpace (Get (header r) "X-Argoos-Token") in
    if decide (token = TOKEN) then None else Some BadTokenError.
Proof.
  intros HT. unfold checkToken.
  rewrite (proj2 (String.eqb_neq TOKEN "") HT). cbv zeta.
  set (token := TrimSpace _).
  destruct (len token <? 1) eqn:Hlen.
  - apply len_lt_1 in Hlen. case_decide; [congruence | reflexivity].
  - case_decide as Heq.
    + apply String.eqb_eq in Heq. now rewrite Heq.
    + apply String.eqb_neq in Heq. now rewrite Heq.
Qed.

(** A non-empty string that is white space only starts with a space. *)
Lemma whitespaceOnly_head (s : string) :
  s <> "" -> whitespaceOnly s = true ->
  unicode.IsSpace (fst (utf8.DecodeRuneInString (bytes s))) = true.
Proof.
  intros Hs Hw. unfold whitespaceOnly, indexFunc in Hw.
  destruct s as [|c s]; [congruence|].
  change (String.length (String c s)) with (S (String.length s)) in Hw.
  cbn [indexFunc_loop] in Hw.
  assert (Hlt : (0 <? len (String c s)) = true)
    by (apply Z.ltb_lt; unfold len; simpl String.length; lia).
  rewrite Hlt, slice_full in Hw.
  destruct (utf8.DecodeRuneInString (bytes (String c s))) as [r wd].
  simpl. destruct (unicode.IsSpace r); [reflexivity|].
  simpl in Hw. discriminate.
Qed.

(** [TrimSpace] never returns a non-empty string of white space. *)
Lemma TrimSpace_not_whitespaceOnly (s : string) :
  TrimSpace s <> "" -> whitespaceOnly (TrimSpace s) = false.
Proof.
  intros Hne. destruct (whitespaceOnly (TrimSpace s)) eqn:Hw; [|reflexivity].
  pose proof (whitespaceOnly_head _ Hne Hw) as Hsp.
  destruct (TrimSpace_head s) as [He|Hns]; congruence.
Qed.

(** A token that comes from the environment alone is empty or has a rune
    that is not white space. *)
Lemma main_TOKEN_env (env_TOKEN : string) :
  main_TOKEN env_TOKEN None = "" \/
  whitespaceOnly (main_TOKEN env_TOKEN None) = false.
Proof.
  unfold main_TOKEN. destruct (len env_TOKEN >? 0); [|now left].
  destruct (decide (TrimSpace env_TOKEN = "")) as [->|Hne]; [now left|].
  right. now apply TrimSpace_not_whitespaceOnly.
Qed.

(** A request without the registry header: [Get] returns the empty
    string. *)
Lemma Get_registry_missing (h : Header) :
  h !! "X-Argoos-Registry-Name" = None ->
  Get h "X-Argoos-Registry-Name" = "".
Proof. unfold Get. rewrite registry_key_canonical. now intros ->. Qed.

End checkTokenFacts.

Import GoString http gostrings.

(** C1. With a non-empty token configured, the check fails when the
    X-Argoos-Token header is missing, when its trimmed value is empty and when
    its trimmed value differs from the token; it succeeds when the trimmed
    value is the token.  Nothing else of the request is looked at: the
    request [r] is arbitrary. *)
Theorem C1_checkToken_enabled (TOKEN : string) (r : Request) :
  TOKEN <> "" ->
  let token := TrimSpace (Get (header r) "X-Argoos-Token") in
  (header r !! "X-Argoos-Token" = None ->
     checkToken TOKEN r = Some BadTokenError) /\
  (token = "" -> checkToken TOKEN r = Some BadTokenError) /\
  (token <> TOKEN -> checkToken TOKEN r = Some BadTokenError) /\
  (token = TOKEN -> checkToken TOKEN r = None).
Proof.
  intros HT token.
  rewrite (checkTokenFacts.checkToken_enabled TOKEN r HT). cbv zeta.
  fold token. repeat split.
  - intros Hmiss. apply checkTokenFacts.Get_missing in Hmiss.
    subst token. rewrite Hmiss, gostringsFacts.TrimSpace_empty.
    case_decide; congruence.
  - intros He. case_decide; congruence.
  - intros Hne. case_decide; congruence.
  - intros He. case_decide; congruence.
Qed.

Lemma C1_checkToken_enabled_witness :
  let r := Samples.postEvent (Samples.withToken "  s3cret ") "{}" in
  "s3cret" <> "" /\ checkToken "s3cret" r = None.
Proof.
  intros r. split; [discriminate|].
  apply (C1_checkToken_enabled "s3cret" r); [discriminate | reflexivity].
Defined.

(** C3. With the empty token configured, the check succeeds on every
    request, also on one without X-Argoos-Token header. *)
Theorem C3_checkToken_disabled (r : Request) :
  checkToken "" r = None /\
  (header r !! "X-Argoos-Token" = None -> checkToken "" r = None).
Proof. split; [reflexivity | intros _; reflexivity]. Qed.

(** C9. A token given with the -token flag is used as it is.  If it is not
    empty and consists only of white space, every request fails the check:
    the header value is trimmed before the comparison and a trimmed value is
    never a non-empty run of white space. *)
Theorem C9_whitespace_token_rejects_all
    (env_TOKEN v : string) (r : Request) :
  v <> "" -> whitespaceOnly v = true ->
  let TOKEN := main_TOKEN env_TOKEN (Some v) in
  TOKEN = v /\ checkToken TOKEN r = Some BadTokenError.
Proof.
  intros Hv Hw TOKEN. split; [reflexivity|].
  subst TOKEN. unfold main_TOKEN.
  rewrite (checkTokenFacts.checkToken_enabled v r Hv). cbv zeta.
  case_decide as Heq; [|reflexivity].
  exfalso.
  assert (Hne : TrimSpace (Get (header r) "X-Argoos-Token") <> "")
    by congruence.
  apply checkTokenFacts.TrimSpace_not_whitespaceOnly in Hne.
  rewrite Heq in Hne. congruence.
Qed.

Lemma C9_whitespace_token_rejects_all_witness :
  let r := Samples.postEvent (Samples.withToken "  ") "{}" in
  checkToken (main_TOKEN "" (Some "  ")) r = Some BadTokenError.
Proof.
  intros r.
  apply (C9_whitespace_token_rejects_all "" "  " r);
    [discriminate | reflexivity].
Defined.

(** * The handlers *)

Module handlerFacts.

(** Running the monad, one operation at a time. *)
Lemma bind_run {A B} (m : M A) (k : A -> M B) (st : World) :
  bind m k st = k (fst (m st)) (snd (m st)).
Proof. unfold bind. now destruct (m st). Qed.

Lemma ret_run {A} (a : A) (st : World) : ret a st = (a, st).
Proof. reflexivity. Qed.

Lemma emit_run (e : Effect) (st : World) :
  emit e st = (tt, {| w := w st; trace := trace st ++ [e] |}).
Proof. reflexivity. Qed.

Lemma onResponse_run (f : response -> response) (st : World) :
  onResponse f st = (tt, {| w := f (w st); trace := trace st |}).
Proof. reflexivity. Qed.

Lemma forRange_emit {A} (f : A -> Effect) (l : list A) : forall st : World,
  forRange l (fun a => emit (f a)) st
  = (tt, {| w := w st; trace := trace st ++ (f <$> l) |}).
Proof.
  induction l as [|a l IH]; intros [rw tr]; simpl.
  - rewrite ret_run. now rewrite app_nil_r.
  - rewrite bind_run, emit_run, IH. simpl. now rewrite <- app_assoc.
Qed.

Create Rewrite HintDb run.
Hint Rewrite @bind_run @ret_run emit_run onResponse_run @forRange_emit : run.

Ltac run := autorewrite with run; cbn [fst snd w trace].

Lemma dispatched_app (t1 t2 : list Effect) :
  dispatched (t1 ++ t2) = dispatched t1 ++ dispatched t2.
Proof. apply omap_app. Qed.

Lemma decoded_app (t1 t2 : list Effect) :
  decoded (t1 ++ t2) = decoded t1 ++ decoded t2.
Proof. apply omap_app. Qed.

Lemma dispatched_calls (l : list apiutils.Event) :
  dispatched (CallImpactedDeployments <$> l) = l.
Proof. induction l as [|e l IH]; simpl; [reflexivity | now f_equal]. Qed.

Lemma decoded_calls (l : list apiutils.Event) :
  decoded (CallImpactedDeployments <$> l) = [].
Proof. induction l as [|e l IH]; simpl; [reflexivity | exact IH]. Qed.

Lemma bodyRead_calls (l : list apiutils.Event) :
  bodyRead (CallImpactedDeployments <$> l) = false.
Proof. induction l as [|e l IH]; simpl; [reflexivity | exact IH]. Qed.

Section Handlers.
Variables (TOKEN : string) (Verbose : bool).
Variable GetEvents : string -> string -> apiutils.Events.

(** The whole run of [Action] on a request that fails the check. *)
Lemma Action_unauthorized (r : Request) (e : error) :
  checkToken TOKEN r = Some e ->
  serve (Action TOKEN Verbose GetEvents) r
  = {| w := {| wroteHeader := true; status := StatusUnauthorized;
               written := Error e |};
       trace := [Log (accessLine r ++ " ERROR::" ++ Error e ++ LF)] |}.
Proof.
  intros Hc. unfold serve, Action. rewrite Hc.
  unfold accessLine. destruct e. simpl.
  repeat rewrite GoStringFacts.append_assoc. reflexivity.
Qed.

(** The whole run of [Action] on a request that passes the check. *)
Lemma Action_authorized (r : Request) :
  checkToken TOKEN r = None ->
  let c := data (body r) in
  let registry := Get (header r) "X-Argoos-Registry-Name" in
  serve (Action TOKEN Verbose GetEvents) r
  = {| w := {| wroteHeader := true; status := StatusOK; written := "" |};
       trace :=
         [Log (accessLine r ++ LF); ReadBody]
         ++ (if Verbose then [Log ("Registry override: " ++ registry ++ LF)]
             else [])
         ++ [CallGetEvents c registry]
         ++ (CallImpactedDeployments
               <$> apiutils.Events_ (GetEvents c registry)) |}.
Proof.
  intros Hc c registry. unfold serve, Action. rewrite Hc.
  unfold ReadAll, apiutils_GetEvents, apiutils_ImpactedDeployments,
    accessLine.
  destruct Verbose; repeat run; fold c registry;
    repeat rewrite GoStringFacts.append_assoc; reflexivity.
Qed.

(** The whole run of [Health]. *)
Lemma Health_run (r : Request) :
  serve Health r
  = {| w := {| wroteHeader := true; status := StatusOK;
               written := "ok" ++ LF |};
       trace := [Log (accessLine r ++ LF)] |}.
Proof.
  unfold serve, Health, accessLine. simpl.
  repeat rewrite GoStringFacts.append_assoc. reflexivity.
Qed.

Lemma ServeHTTP_event (r : Request) :
  Path (url r) = "/event" ->
  ServeHTTP TOKEN Verbose GetEvents r
  = Some (serve (Action TOKEN Verbose GetEvents) r).
Proof. unfold ServeHTTP, DefaultServeMux. now intros ->. Qed.

Lemma ServeHTTP_healthz (r : Request) :
  Path (url r) = "/healthz" ->
  ServeHTTP TOKEN Verbose GetEvents r = Some (serve Health r).
Proof. unfold ServeHTTP, DefaultServeMux. now intros ->. Qed.

(** What [serve] leaves of a request that passes the check: the answer,
    the one call of the decoder and the events dispatched. *)
Lemma Action_authorized_readings (r : Request) :
  checkToken TOKEN r = None ->
  let c := data (body r) in
  let registry := Get (header r) "X-Argoos-Registry-Name" in
  let st := serve (Action TOKEN Verbose GetEvents) r in
  w st = {| wroteHeader := true; status := StatusOK; written := "" |} /\
  bodyRead (trace st) = true /\
  decoded (trace st) = [(c, registry)] /\
  dispatched (trace st) = apiutils.Events_ (GetEvents c registry).
Proof.
  intros Hc c registry st. subst st.
  rewrite (Action_authorized r Hc). cbv zeta. fold c registry.
  cbn [w trace]. split; [reflexivity|]. split; [reflexivity|].
  split.
  - rewrite !decoded_app, decoded_calls. now destruct Verbose.
  - rewrite !dispatched_app, dispatched_calls. now destruct Verbose.
Qed.

End Handlers.

(** [checkToken] does not look at the body. *)
Lemma checkToken_withoutReadError (TOKEN : string) (r : Request) :
  checkToken TOKEN (withoutReadError r) = checkToken TOKEN r.
Proof. reflexivity. Qed.

(** With the decoder of the spec, an override that is not empty is the
    registry origin of every event. *)
Lemma GetEvents_spec_override
    (parseEnvelope : string -> option (list apiutils.Record_))
    (c registry : string) :
  registry <> "" ->
  Forall (fun e => apiutils.registryOrigin e = registry)
         (apiutils.Events_ (apiutils.GetEvents_spec parseEnvelope c registry)).
Proof.
  intros Hreg. unfold apiutils.GetEvents_spec, apiutils.decode.
  destruct (parseEnvelope c) as [records|]; simpl; [|constructor].
  apply Forall_fmap, Forall_forall. intros rec _. simpl.
  now rewrite (proj2 (String.eqb_neq registry "") Hreg).
Qed.

End handlerFacts.

Import handlerFacts.

(** C4. A request to /event that fails the check is answered 401 and nothing
    more happens: the body is not read, the decoder is not called and no
    event is handed to the impact resolution. *)
Theorem C4_unauthorized_no_processing
    (TOKEN : string) (Verbose : bool)
    (GetEvents : string -> string -> apiutils.Events) (r : Request) :
  Path (url r) = "/event" ->
  checkToken TOKEN r <> None ->
  exists st : World,
    ServeHTTP TOKEN Verbose GetEvents r = Some st /\
    status (w st) = StatusUnauthorized /\ status (w st) = 401 /\
    bodyRead (trace st) = false /\
    decoded (trace st) = [] /\
    dispatched (trace st) = [].
Proof.
  intros Hpath Hfail.
  destruct (checkToken TOKEN r) as [e|] eqn:Hc; [|congruence].
  eexists. split.
  - rewrite (ServeHTTP_event _ _ _ _ Hpath).
    now rewrite (Action_unauthorized TOKEN Verbose GetEvents r e Hc).
  - repeat split; reflexivity.
Qed.

Lemma C4_unauthorized_no_processing_witness :
  exists st : World,
    ServeHTTP "s3cret" true Samples.noEvents
      (Samples.postEvent (Samples.withToken "guess") "{}") = Some st /\
    status (w st) = StatusUnauthorized /\ status (w st) = 401 /\
    bodyRead (trace st) = false /\
    decoded (trace st) = [] /\
    dispatched (trace st) = [].
Proof.
  apply (C4_unauthorized_no_processing "s3cret" true Samples.noEvents
           (Samples.postEvent (Samples.withToken "guess") "{}"));
    [reflexivity | vm_compute; discriminate].
Defined.

(** C5, as the code has it.  A request to /healthz is answered 200 with the
    body [ok] followed by a line feed, whatever the configured token and the
    headers of the request (no token check), and apart from one log line
    nothing happens: the body is not read and package apiutils is not
    called. *)
Theorem C5_healthz
    (TOKEN : string) (Verbose : bool)
    (GetEvents : string -> string -> apiutils.Events) (r : Request) :
  Path (url r) = "/healthz" ->
  exists (st : World) (line : string),
    ServeHTTP TOKEN Verbose GetEvents r = Some st /\
    status (w st) = 200 /\
    written (w st) = ("ok" ++ LF)%string /\
    trace st = [Log line].
Proof.
  intros Hpath. eexists. eexists. split.
  - rewrite (ServeHTTP_healthz _ _ _ _ Hpath). now rewrite Health_run.
  - repeat split; reflexivity.
Qed.

Lemma C5_healthz_witness :
  checkToken "s3cret" Samples.getHealthz = Some BadTokenError /\
  exists (st : World) (line : string),
    ServeHTTP "s3cret" false Samples.noEvents Samples.getHealthz = Some st /\
    status (w st) = 200 /\
    written (w st) = ("ok" ++ LF)%string /\
    trace st = [Log line].
Proof.
  split; [reflexivity|].
  apply (C5_healthz "s3cret" false Samples.noEvents Samples.getHealthz).
  reflexivity.
Defined.

(** C5, as the claim has it, fails: the body of the answer to GET /healthz
    is three bytes long, it is not [ok]. *)
Lemma C5_body_is_not_ok :
  exists st : World,
    ServeHTTP "" false Samples.noEvents Samples.getHealthz = Some st /\
    status (w st) = 200 /\
    written (w st) <> "ok" /\
    GoString.bytes (written (w st)) = [0x6F; 0x6B; 0x0A].
Proof.
  eexists. split; [reflexivity|]. split; [reflexivity|].
  split; [discriminate | reflexivity].
Qed.

Module rolloutFacts.
Import rollout.

(** What one trigger keeps and what it adds. *)
Lemma trigger_keeps (wid : string) (why : apiutils.Event) (c : Controller) :
  snapshot (trigger wid why c) = snapshot c /\
  finished (trigger wid why c) = finished c /\
  (exists requested, inFlight (trigger wid why c) = inFlight c ++ requested) /\
  wid ∈ pending (trigger wid why c).
Proof.
  unfold trigger, pending. destruct (isInFlight wid c) eqn:Hin; cbn.
  - repeat split; [exists []; now rewrite app_nil_r|].
    unfold isInFlight in Hin. apply existsb_exists in Hin as (req & Hreq & Heq).
    apply String.eqb_eq in Heq. subst wid.
    apply list_elem_of_fmap_2, list_elem_of_In, Hreq.
  - repeat split; [eexists; reflexivity|].
    rewrite fmap_app. apply elem_of_app. right. cbn. apply list_elem_of_here.
Qed.

Lemma extends_refl (c : Controller) : extends c c.
Proof. repeat split. exists []. now rewrite app_nil_r. Qed.

Lemma extends_trans (c0 c1 c2 : Controller) :
  extends c0 c1 -> extends c1 c2 -> extends c0 c2.
Proof.
  intros (Hs1 & Hf1 & q1 & Hq1) (Hs2 & Hf2 & q2 & Hq2).
  repeat split; [congruence | congruence|].
  exists (q1 ++ q2). now rewrite Hq2, Hq1, app_assoc.
Qed.

Lemma extends_pending (c0 c : Controller) (wid : string) :
  extends c0 c -> wid ∈ pending c0 -> wid ∈ pending c.
Proof.
  intros (_ & _ & q & Hq) Hin. unfold pending in *.
  rewrite Hq, fmap_app. apply elem_of_app. now left.
Qed.

Lemma trigger_extends (wid : string) (why : apiutils.Event) (c : Controller) :
  extends c (trigger wid why c).
Proof. destruct (trigger_keeps wid why c) as (? & ? & ? & _). now repeat split. Qed.

Lemma triggers_extend (why : apiutils.Event) (wids : list string) :
  forall c : Controller,
    let c' := foldl (fun c wid => trigger wid why c) c wids in
    extends c c' /\ forall wid, wid ∈ wids -> wid ∈ pending c'.
Proof.
  induction wids as [|x wids IH]; intros c; cbn.
  - split; [apply extends_refl|]. intros wid Hin. now apply elem_of_nil in Hin.
  - destruct (IH (trigger x why c)) as [Hext Hall]. split.
    + eapply extends_trans; [apply trigger_extends | exact Hext].
    + intros wid Hin. apply elem_of_cons in Hin as [->|Hin]; [|now apply Hall].
      eapply extends_pending; [exact Hext|].
      now destruct (trigger_keeps x why c) as (_ & _ & _ & ?).
Qed.

(** One call of [ImpactedDeployments]: nothing is waited for, and unless it
    fails every impacted workload has a request in flight. *)
Lemma ImpactedDeployments_spec_extends (fails : apiutils.Event -> bool)
    (e : apiutils.Event) (c : Controller) :
  let c' := ImpactedDeployments_spec fails e c in
  extends c c' /\
  (fails e = false ->
   forall wid, wid ∈ resolve (snapshot c) e -> wid ∈ pending c').
Proof.
  unfold ImpactedDeployments_spec. destruct (fails e).
  - split; [apply extends_refl | discriminate].
  - destruct (triggers_extend e (resolve (snapshot c) e) c) as [Hext Hall].
    split; [exact Hext | intros _; exact Hall].
Qed.

(** The calls of a batch, one after the other: an event that fails stops
    nothing. *)
Lemma batch_extends (fails : apiutils.Event -> bool)
    (events : list apiutils.Event) :
  forall c : Controller,
    let c' := foldl (fun c e => ImpactedDeployments_spec fails e c) c events in
    extends c c' /\
    (forall e wid, e ∈ events -> fails e = false ->
                   wid ∈ resolve (snapshot c) e -> wid ∈ pending c').
Proof.
  induction events as [|x events IH]; intros c; cbn.
  - split; [apply extends_refl|]. intros e wid Hin. now apply elem_of_nil in Hin.
  - destruct (ImpactedDeployments_spec_extends fails x c) as [Hx Hpx].
    destruct (IH (ImpactedDeployments_spec fails x c)) as [Hext Hall].
    split; [eapply extends_trans; eassumption|].
    intros e wid Hin Hok Hwid.
    apply elem_of_cons in Hin as [->|Hin].
    + eapply extends_pending; [exact Hext|]. now apply Hpx.
    + apply (Hall e wid Hin Hok).
      destruct Hx as (Hs & _). now rewrite Hs.
Qed.

(** Only the calls of [ImpactedDeployments] act on the controller. *)
Lemma replay_dispatched (fails : apiutils.Event -> bool) (tr : list Effect) :
  forall c : Controller,
    replay fails tr c
    = foldl (fun c e => ImpactedDeployments_spec fails e c) c (dispatched tr).
Proof.
  induction tr as [|x tr IH]; intros c; [reflexivity|].
  destruct x; cbn; apply IH.
Qed.

End rolloutFacts.

(** C6. A request to /event that passes the check and whose body the decoder
    turns into events is answered 200 once every event has been handed to
    [apiutils.ImpactedDeployments], each one, in order; the dispatch calls
    are the last thing the handler does.  With the controller of the spec
    behind these calls: every event is resolved and triggered in turn, an
    event that fails stops none of the others, every workload impacted by an
    event that does not fail has a rollout requested, and when the handler
    returns no patch call has returned on its account: the rollouts it asked
    for, and those that were in flight before, are still in flight. *)
Theorem C6_all_events_dispatched
    (TOKEN : string) (Verbose : bool)
    (GetEvents : string -> string -> apiutils.Events) (r : Request)
    (fails : apiutils.Event -> bool) (ctl0 : rollout.Controller) :
  Path (url r) = "/event" ->
  checkToken TOKEN r = None ->
  let events :=
    apiutils.Events_
      (GetEvents (data (body r)) (Get (header r) "X-Argoos-Registry-Name")) in
  exists (st : World) (before : list Effect),
    ServeHTTP TOKEN Verbose GetEvents r = Some st /\
    status (w st) = 200 /\
    dispatched (trace st) = events /\
    trace st = before ++ (CallImpactedDeployments <$> events) /\
    dispatched before = [] /\
    let ctl := rollout.replay fails (trace st) ctl0 in
    ctl = foldl (fun c e => rollout.ImpactedDeployments_spec fails e c)
            ctl0 events /\
    (forall e wid,
       e ∈ events -> fails e = false ->
       wid ∈ rollout.resolve (rollout.snapshot ctl0) e ->
       wid ∈ rollout.pending ctl) /\
    rollout.finished ctl = rollout.finished ctl0 /\
    (exists requested,
       rollout.inFlight ctl = rollout.inFlight ctl0 ++ requested) /\
    rollout.snapshot ctl = rollout.snapshot ctl0.
Proof.
  intros Hpath Hc events.
  destruct (Action_authorized_readings TOKEN Verbose GetEvents r Hc)
    as (Hw & _ & _ & Hd). cbv zeta in Hd. fold events in Hd.
  eexists. eexists. split; [exact (ServeHTTP_event _ _ _ _ Hpath)|].
  split; [now rewrite Hw|]. split; [exact Hd|].
  split; [|split].
  - rewrite (Action_authorized TOKEN Verbose GetEvents r Hc). cbv zeta.
    fold events. cbn [trace]. now rewrite !app_assoc.
  - rewrite !dispatched_app. now destruct Verbose.
  - cbv zeta. rewrite rolloutFacts.replay_dispatched, Hd.
    destruct (rolloutFacts.batch_extends fails events ctl0)
      as [(Hs & Hf & Hq) Hall].
    split; [reflexivity|]. split; [exact Hall|].
    split; [exact Hf|]. split; [exact Hq | exact Hs].
Qed.

Lemma C6_all_events_dispatched_witness :
  let r := Samples.postEvent (Samples.withToken "s3cret") "{}" in
  let GetEvents := apiutils.GetEvents_spec Samples.threePushes in
  (exists (st : World) (before : list Effect),
     ServeHTTP "s3cret" false GetEvents r = Some st /\
     status (w st) = 200 /\
     dispatched (trace st)
     = [apiutils.toEvent "" Samples.pushDb;
        apiutils.toEvent "" Samples.pushRecord;
        apiutils.toEvent "" Samples.pushWeb] /\
     trace st
     = before ++ [CallImpactedDeployments (apiutils.toEvent "" Samples.pushDb);
                  CallImpactedDeployments (apiutils.toEvent "" Samples.pushRecord);
                  CallImpactedDeployments (apiutils.toEvent "" Samples.pushWeb)]
     /\ dispatched before = [] /\
     let ctl := rollout.replay Samples.failsDb (trace st) Samples.cluster in
     ctl = foldl (fun c e => rollout.ImpactedDeployments_spec Samples.failsDb e c)
             Samples.cluster
             [apiutils.toEvent "" Samples.pushDb;
              apiutils.toEvent "" Samples.pushRecord;
              apiutils.toEvent "" Samples.pushWeb] /\
     (forall e wid,
        e ∈ [apiutils.toEvent "" Samples.pushDb;
             apiutils.toEvent "" Samples.pushRecord;
             apiutils.toEvent "" Samples.pushWeb] ->
        Samples.failsDb e = false ->
        wid ∈ rollout.resolve (rollout.snapshot Samples.cluster) e ->
        wid ∈ rollout.pending ctl) /\
     rollout.finished ctl = ["ns/old"] /\
     (exists requested,
        rollout.inFlight ctl = rollout.inFlight Samples.cluster ++ requested) /\
     rollout.snapshot ctl = rollout.snapshot Samples.cluster) /\
  rollout.pending
    (rollout.replay Samples.failsDb
       (trace (serve (Action "s3cret" false GetEvents) r)) Samples.cluster)
  = ["ns/cron"; "ns/app"; "ns/web"].
Proof.
  intros r GetEvents. split; [|reflexivity].
  apply (C6_all_events_dispatched "s3cret" false GetEvents r
           Samples.failsDb Samples.cluster);
    reflexivity.
Defined.

(** C2, as the code has it.  A request to /event that passes the check is
    answered 200 with an empty body whatever its body is, malformed or not:
    after the check the handler writes no status.  The events dispatched are
    those the decoder returns, so none is dispatched when the decoder
    returns none. *)
Theorem C2_authorized_status_is_200
    (TOKEN : string) (Verbose : bool)
    (GetEvents : string -> string -> apiutils.Events) (r : Request) :
  Path (url r) = "/event" ->
  checkToken TOKEN r = None ->
  exists st : World,
    ServeHTTP TOKEN Verbose GetEvents r = Some st /\
    status (w st) = 200 /\ ~ is4xx (status (w st)) /\
    written (w st) = "" /\
    dispatched (trace st)
    = apiutils.Events_
        (GetEvents (data (body r)) (Get (header r) "X-Argoos-Registry-Name"))
    /\
    (apiutils.Events_
       (GetEvents (data (body r)) (Get (header r) "X-Argoos-Registry-Name"))
     = [] -> dispatched (trace st) = []).
Proof.
  intros Hpath Hc.
  destruct (Action_authorized_readings TOKEN Verbose GetEvents r Hc)
    as (Hw & _ & _ & Hd).
  eexists. split; [exact (ServeHTTP_event _ _ _ _ Hpath)|].
  rewrite Hw. cbn [status written].
  split; [reflexivity|]. split; [unfold is4xx, StatusOK; lia|].
  split; [reflexivity|]. split; [exact Hd|].
  intros Hnone. now rewrite Hd.
Qed.

Lemma C2_authorized_status_is_200_witness :
  let r := Samples.postEvent ∅ "this is not an envelope" in
  exists st : World,
    ServeHTTP "" false (apiutils.GetEvents_spec Samples.rejectAll) r = Some st /\
    status (w st) = 200 /\ ~ is4xx (status (w st)) /\
    written (w st) = "" /\
    dispatched (trace st)
    = apiutils.Events_
        (apiutils.GetEvents_spec Samples.rejectAll (data (body r))
           (Get (header r) "X-Argoos-Registry-Name"))
    /\
    (apiutils.Events_
       (apiutils.GetEvents_spec Samples.rejectAll (data (body r))
          (Get (header r) "X-Argoos-Registry-Name"))
     = [] -> dispatched (trace st) = []).
Proof.
  intros r.
  apply (C2_authorized_status_is_200 "" false
           (apiutils.GetEvents_spec Samples.rejectAll) r);
    reflexivity.
Defined.

(** C2, as the claim has it, fails: a request that passes the check and
    whose body the decoder rejects is answered 200, which is no 4xx status. *)
Lemma C2_malformed_body_is_answered_200 :
  let r := Samples.postEvent ∅ "this is not an envelope" in
  checkToken "" r = None /\
  apiutils.decode Samples.rejectAll (data (body r)) "" = None /\
  exists st : World,
    ServeHTTP "" false (apiutils.GetEvents_spec Samples.rejectAll) r = Some st /\
    status (w st) = 200 /\ ~ is4xx (status (w st)).
Proof.
  intros r. split; [reflexivity|]. split; [reflexivity|].
  eexists. split; [reflexivity|]. split; [reflexivity|].
  unfold is4xx. intros [H _]. vm_compute in H. now apply H.
Qed.

(** C8. On a request to /event that passes the check, the decoder is called
    once, with the body read and with the value of the header
    X-Argoos-Registry-Name, which is empty when the header is absent.  With
    the decoder of the spec, a value that is not empty is the registry origin
    of every event dispatched for the request. *)
Theorem C8_registry_override
    (TOKEN : string) (Verbose : bool)
    (GetEvents : string -> string -> apiutils.Events)
    (parseEnvelope : string -> option (list apiutils.Record_))
    (r : Request) :
  Path (url r) = "/event" ->
  checkToken TOKEN r = None ->
  let registry := Get (header r) "X-Argoos-Registry-Name" in
  (header r !! "X-Argoos-Registry-Name" = None -> registry = "") /\
  (exists st : World,
     ServeHTTP TOKEN Verbose GetEvents r = Some st /\
     decoded (trace st) = [(data (body r), registry)]) /\
  (registry <> "" ->
   exists st : World,
     ServeHTTP TOKEN Verbose (apiutils.GetEvents_spec parseEnvelope) r
     = Some st /\
     Forall (fun e => apiutils.registryOrigin e = registry)
            (dispatched (trace st))).
Proof.
  intros Hpath Hc registry. split; [|split].
  - apply checkTokenFacts.Get_registry_missing.
  - destruct (Action_authorized_readings TOKEN Verbose GetEvents r Hc)
      as (_ & _ & Hdec & _).
    eexists. split; [exact (ServeHTTP_event _ _ _ _ Hpath) | exact Hdec].
  - intros Hreg.
    destruct (Action_authorized_readings TOKEN Verbose
                (apiutils.GetEvents_spec parseEnvelope) r Hc)
      as (_ & _ & _ & Hd).
    eexists. split; [exact (ServeHTTP_event _ _ _ _ Hpath)|].
    rewrite Hd. now apply GetEvents_spec_override.
Qed.

Lemma C8_registry_override_witness :
  let r := Samples.postEvent {[ "X-Argoos-Registry-Name" := ["hub.example"] ]}
             "{}" in
  exists st : World,
    ServeHTTP "" false (apiutils.GetEvents_spec Samples.twoRecords) r
    = Some st /\
    Forall (fun e => apiutils.registryOrigin e = "hub.example")
           (dispatched (trace st)).
Proof.
  intros r.
  refine (proj2 (proj2 (C8_registry_override "" false
           (apiutils.GetEvents_spec Samples.twoRecords) Samples.twoRecords r
           _ _)) _).
  - reflexivity.
  - reflexivity.
  - vm_compute. discriminate.
Defined.

(** C10. On a request to /event that passes the check, an error of the
    reading of the body is dropped: the bytes read before it go to the
    decoder, and the request is answered as the same request read without
    error, with status 200. *)
Theorem C10_read_error_discarded
    (TOKEN : string) (Verbose : bool)
    (GetEvents : string -> string -> apiutils.Events) (r : Request)
    (e : string) :
  Path (url r) = "/event" ->
  checkToken TOKEN r = None ->
  err (body r) = Some e ->
  exists st : World,
    ServeHTTP TOKEN Verbose GetEvents r = Some st /\
    status (w st) = 200 /\
    decoded (trace st)
    = [(data (body r), Get (header r) "X-Argoos-Registry-Name")] /\
    ServeHTTP TOKEN Verbose GetEvents (withoutReadError r) = Some st.
Proof.
  intros Hpath Hc _.
  destruct (Action_authorized_readings TOKEN Verbose GetEvents r Hc)
    as (Hw & _ & Hdec & _).
  eexists. split; [exact (ServeHTTP_event _ _ _ _ Hpath)|].
  split; [now rewrite Hw|]. split; [exact Hdec|].
  rewrite (ServeHTTP_event TOKEN Verbose GetEvents (withoutReadError r) Hpath).
  rewrite (Action_authorized TOKEN Verbose GetEvents r Hc).
  now rewrite (Action_authorized TOKEN Verbose GetEvents (withoutReadError r)
                 Hc).
Qed.

Lemma C10_read_error_discarded_witness :
  let r := Samples.postEventBroken ∅ "{ partial" in
  exists st : World,
    ServeHTTP "" false Samples.noEvents r = Some st /\
    status (w st) = 200 /\
    decoded (trace st) = [("{ partial", "")] /\
    ServeHTTP "" false Samples.noEvents (withoutReadError r) = Some st.
Proof.
  intros r.
  apply (C10_read_error_discarded "" false Samples.noEvents r "unexpected EOF");
    reflexivity.
Defined.

(** * The signal goroutine *)

Module SigFacts.
Import Sig.

Ltac invert_run :=
  repeat match goal with
  | H : step _ _ _ |- _ => inversion H; subst; clear H
  | H : steps _ _ _ |- _ => inversion H; subst; clear H
  end.

(** [sig] is deterministic. *)
Lemma step_deterministic (p : pc) (l1 l2 : Label) (p1 p2 : pc) :
  step p l1 p1 -> step p l2 p2 -> l1 = l2 /\ p1 = p2.
Proof. intros H1 H2. destruct H1; inversion H2; subst; auto. Qed.

(** After the signal every program point before the exit has a next
    step: nothing but the signal and the return of [StopRollout] is waited
    for. *)
Lemma step_progress (p : pc) :
  (forall code, p <> Exited code) -> exists l p', step p l p'.
Proof.
  intros Hp. destruct p; try (eexists; eexists; constructor).
  now destruct (Hp code).
Qed.

(** The run of [sig] from its start to the exit of the process. *)
Lemma interrupt_run_steps :
  steps AtNotify (Notify Interrupt :: interrupt_run) (Exited 0).
Proof. repeat econstructor. Qed.

(** A process that has exited makes no step. *)
Lemma Exited_final (code : Z) (l : Label) (p : pc) : ~ step (Exited code) l p.
Proof. intros H. inversion H. Qed.

End SigFacts.

(** C7. Every run of [sig] that ends with the exit of the process received
    the interrupt signal, entered [apiutils.StopRollout] and returned from it
    before [os.Exit], and the exit code is 0. *)
Theorem C7_stop_before_exit (run : list Sig.Label) (code : Z) :
  Sig.steps Sig.AtNotify run (Sig.Exited code) ->
  run = Sig.Notify Sig.Interrupt :: Sig.interrupt_run /\
  Sig.before (Sig.Recv Sig.Interrupt) Sig.CallStopRollout run /\
  Sig.before Sig.CallStopRollout Sig.RetStopRollout run /\
  Sig.before Sig.RetStopRollout (Sig.Exit code) run /\
  code = 0.
Proof.
  intros Hrun.
  assert (Hshape : run = Sig.Notify Sig.Interrupt :: Sig.interrupt_run
                   /\ code = 0).
  { SigFacts.invert_run. split; reflexivity. }
  destruct Hshape as [-> ->]. split; [reflexivity|].
  unfold Sig.before, Sig.interrupt_run.
  split; [|split; [|split; [|reflexivity]]].
  - exists [Sig.Notify Sig.Interrupt], [], [Sig.RetStopRollout;
      Sig.Println ("Got signal interrupt" ++ LF); Sig.Exit 0]. reflexivity.
  - exists [Sig.Notify Sig.Interrupt; Sig.Recv Sig.Interrupt], [],
      [Sig.Println ("Got signal interrupt" ++ LF); Sig.Exit 0]. reflexivity.
  - exists [Sig.Notify Sig.Interrupt; Sig.Recv Sig.Interrupt;
            Sig.CallStopRollout],
      [Sig.Println ("Got signal interrupt" ++ LF)], []. reflexivity.
Qed.

Lemma C7_stop_before_exit_witness :
  Sig.steps Sig.AtNotify (Sig.Notify Sig.Interrupt :: Sig.interrupt_run)
    (Sig.Exited 0) /\
  Sig.before Sig.RetStopRollout (Sig.Exit 0)
    (Sig.Notify Sig.Interrupt :: Sig.interrupt_run).
Proof.
  split; [exact SigFacts.interrupt_run_steps|].
  apply (C7_stop_before_exit (Sig.Notify Sig.Interrupt :: Sig.interrupt_run) 0).
  repeat econstructor.
Defined.

(** * Trimming: what [strings.TrimSpace] leaves *)

Module trimFacts.
Import GoString utf8 utf8Facts GoStringFacts gostrings gostringsFacts runes.

Lemma first_ascii (b : Z) : b < 0x80 -> first b = as_.
Proof. intros Hb. unfold first. case_match; bool_to_Z; [reflexivity | lia]. Qed.

Lemma first_continuation (b : Z) : continuation b -> first b = xx.
Proof.
  unfold continuation, first. intros Hb.
  repeat (case_match; bool_to_Z; try lia); reflexivity.
Qed.

Ltac decode_head :=
  unfold DecodeRuneInString; simpl length;
  match goal with
  | |- context [Z.of_nat (S ?n) <? 1] =>
      replace (Z.of_nat (S n) <? 1) with false
        by (symmetry; apply Z.ltb_ge; lia)
  end;
  change (at_ (?a :: _) 0) with a; cbv zeta.

Lemma DecodeRuneInString_ascii (b : Z) (l : list Z) :
  b < 0x80 -> snd (DecodeRuneInString (b :: l)) = 1.
Proof. intros Hb. decode_head. now rewrite (first_ascii b Hb). Qed.

Lemma DecodeRuneInString_continuation (b : Z) (l : list Z) :
  continuation b -> DecodeRuneInString (b :: l) = (RuneError, 1).
Proof.
  intros Hb. decode_head. rewrite (first_continuation b Hb). simpl.
  now rewrite Z.land_0_r.
Qed.

Lemma DecodeRuneInString_single (b : Z) :
  snd (DecodeRuneInString [b]) = 1.
Proof.
  decode_head.
  destruct (first_cases b) as [E|[E|[E|[E|[E|[E|[E|[E|E]]]]]]]];
    rewrite E; reflexivity.
Qed.

Lemma DecodeRuneInString_next (b0 b1 : Z) (l : list Z) :
  ~ continuation b1 -> snd (DecodeRuneInString (b0 :: b1 :: l)) = 1.
Proof.
  unfold continuation. intros Hb. decode_head.
  change (at_ (_ :: ?a :: _) 1) with a.
  destruct (first_cases b0) as [E|[E|[E|[E|[E|[E|[E|[E|E]]]]]]]];
    rewrite E; simpl; try reflexivity.
  all: repeat (case_match; try reflexivity).
  all: exfalso; unfold locb, hicb in *;
       repeat match goal with
       | H : _ || _ = false |- _ => apply orb_false_iff in H; destruct H
       end; bool_to_Z; lia.
Qed.

Lemma DecodeRuneInString_lead (b : Z) (l : list Z) :
  fst (DecodeRuneInString (b :: l)) <> RuneError -> ~ continuation b.
Proof.
  intros Hr Hb. now rewrite (DecodeRuneInString_continuation b l Hb) in Hr.
Qed.

(** The three ways [DecodeLastRuneInString] answers on a non-empty string:
    an ASCII byte, an invalid encoding, or the rune that decoding forward
    from its first byte gives. *)
Lemma DecodeLastRuneInString_cases (l : list Z) :
  l <> [] ->
  let n := Z.of_nat (length l) in
  let '(r, size) := DecodeLastRuneInString l in
  (at_ l (n - 1) < RuneSelf /\ r = at_ l (n - 1) /\ size = 1) \/
  (RuneSelf <= at_ l (n - 1) /\
   ((r = RuneError /\ size = 1) \/
    (1 <= size <= n /\
     DecodeRuneInString (drop (Z.to_nat (n - size)) l) = (r, size)))).
Proof.
  intros Hl n. unfold DecodeLastRuneInString. fold n.
  assert (Hn : 1 <= n) by (subst n; destruct l; [congruence | simpl length; lia]).
  destruct (n =? 0) eqn:H0; [bool_to_Z; lia|].
  destruct (at_ l (n - 1) <? RuneSelf) eqn:Hlast; bool_to_Z.
  { cbv beta iota. left. auto. }
  set (lim := if n - UTFMax <? 0 then 0 else n - UTFMax).
  pose proof (backup_le (Z.to_nat UTFMax) l lim (n - 1 - 1)) as Hb.
  set (st0 := backup (Z.to_nat UTFMax) l lim (n - 1 - 1)) in *.
  set (st := if st0 <? 0 then 0 else st0).
  assert (Hst : 0 <= st < n) by (subst st; case_match; bool_to_Z; lia).
  destruct (DecodeRuneInString (drop (Z.to_nat st) l)) as [r size] eqn:Hd.
  pose proof (DecodeRuneInString_width (drop (Z.to_nat st) l)) as Hw.
  rewrite Hd in Hw. simpl in Hw.
  destruct (st + size =? n) eqn:He; cbv beta iota; bool_to_Z;
    right; (split; [lia|]).
  - right. replace (n - size) with st by lia. split; [|exact Hd].
    assert (drop (Z.to_nat st) l <> []).
    { intros Hnil. apply (f_equal (@length Z)) in Hnil.
      rewrite length_drop in Hnil. simpl in Hnil. subst n. lia. }
    lia.
  - left. auto.
Qed.

Lemma at_take (l : list Z) (e : nat) (i : Z) :
  0 <= i < Z.of_nat e -> at_ (take e l) i = at_ l i.
Proof.
  intros Hi. unfold at_.
  assert (Hn : (Z.to_nat i < e)%nat) by lia.
  generalize dependent (Z.to_nat i). clear Hi i.
  revert e. induction l as [|a l IH]; intros [|e] [|n] Hn; simpl;
    try reflexivity; try lia.
  apply IH. lia.
Qed.

Lemma drop_at (l : list Z) (i : nat) :
  (i < length l)%nat -> drop i l = at_ l (Z.of_nat i) :: drop (S i) l.
Proof.
  intros Hi. unfold at_. rewrite Nat2Z.id.
  revert i Hi. induction l as [|a l IH]; intros [|i] Hi; simpl in *;
    try lia; [reflexivity|].
  apply IH. lia.
Qed.

Lemma bytes_prefix (s : string) (e : Z) :
  bytes (slice s 0 e) = take (Z.to_nat e) (bytes s).
Proof. rewrite bytes_slice. now rewrite Z.sub_0_r. Qed.

Lemma bytes_suffix (s : string) (i : Z) :
  bytes (slice s i (len s)) = drop (Z.to_nat i) (bytes s).
Proof.
  rewrite bytes_slice. apply take_ge.
  rewrite length_drop, length_bytes. unfold len. lia.
Qed.

Lemma endOfRune_invalid (u : list Z) (e : Z) :
  0 < e <= Z.of_nat (length u) -> boundary u e ->
  RuneSelf <= at_ u (e - 1) -> endOfRune u (e - 1) = e.
Proof.
  intros He Hb Hlast. unfold endOfRune.
  replace (e - 1 >=? 0) with true by (symmetry; rewrite Z.geb_leb; apply Z.leb_le; lia).
  replace (at_ u (e - 1) >=? RuneSelf) with true
    by (symmetry; rewrite Z.geb_leb; apply Z.leb_le; lia).
  simpl andb. cbv iota.
  rewrite (drop_at u (Z.to_nat (e - 1))) by lia.
  destruct (decide (e = Z.of_nat (length u))) as [Hend|Hin].
  - rewrite drop_ge by lia. rewrite DecodeRuneInString_single. lia.
  - destruct Hb as [Hend|Hnc]; [contradiction|].
    rewrite (drop_at u (S (Z.to_nat (e - 1)))) by lia.
    replace (Z.of_nat (S (Z.to_nat (e - 1)))) with e by lia.
    rewrite DecodeRuneInString_next by exact Hnc. lia.
Qed.

Lemma endOfRune_last (u : list Z) (e : Z) :
  0 < e <= Z.of_nat (length u) -> boundary u e ->
  endOfRune u (e - snd (DecodeLastRuneInString (take (Z.to_nat e) u))) = e.
Proof.
  intros He Hb.
  set (l := take (Z.to_nat e) u).
  assert (Hlen : Z.of_nat (length l) = e)
    by (subst l; rewrite length_take; lia).
  assert (Hl : l <> []) by (intros E; rewrite E in Hlen; simpl in Hlen; lia).
  pose proof (DecodeLastRuneInString_cases l Hl) as Hc. cbv zeta in Hc.
  rewrite Hlen in Hc.
  assert (Hat : forall i, 0 <= i < e -> at_ l i = at_ u i)
    by (intros i Hi; subst l; apply at_take; lia).
  destruct (DecodeLastRuneInString l) as [r size]. cbn [snd].
  destruct Hc as [(Hlast & _ & ->)|(Hlast & [(_ & ->)|(Hsz & Hd)])].
  - rewrite Hat in Hlast by lia. unfold endOfRune.
    replace (at_ u (e - 1) >=? RuneSelf) with false
      by (symmetry; rewrite Z.geb_leb; apply Z.leb_gt; lia).
    rewrite andb_false_r. lia.
  - rewrite Hat in Hlast by lia. now apply endOfRune_invalid.
  - assert (Hdrop : drop (Z.to_nat (e - size)) l
                    = take (Z.to_nat size) (drop (Z.to_nat (e - size)) u)).
    { subst l. rewrite take_drop_commute. f_equal. f_equal. lia. }
    rewrite Hdrop in Hd.
    destruct (DecodeRuneInString_take (drop (Z.to_nat (e - size)) u)
                (Z.to_nat size) ltac:(lia)) as [Heq|Heq]; rewrite Hd in Heq.
    + unfold endOfRune.
      destruct ((e - size >=? 0) && (at_ u (e - size) >=? RuneSelf)) eqn:Hcond.
      * rewrite <- Heq. simpl. lia.
      * apply andb_false_iff in Hcond as [Hc|Hc]; [bool_to_Z; lia|].
        rewrite Z.geb_leb in Hc. apply Z.leb_gt in Hc.
        rewrite (drop_at u (Z.to_nat (e - size))) in Heq by lia.
        replace (Z.of_nat (Z.to_nat (e - size))) with (e - size) in Heq by lia.
        pose proof (DecodeRuneInString_ascii (at_ u (e - size))
                      (drop (S (Z.to_nat (e - size))) u) Hc) as Hw.
        rewrite <- Heq in Hw. simpl in Hw. lia.
    + injection Heq as -> ->. rewrite Hat in Hlast by lia.
      now apply endOfRune_invalid.
Qed.

Lemma boundary_step (u : list Z) (e : Z) (f : Z -> bool) :
  f RuneError = false ->
  0 < e <= Z.of_nat (length u) ->
  f (fst (DecodeLastRuneInString (take (Z.to_nat e) u))) = true ->
  let e' := e - snd (DecodeLastRuneInString (take (Z.to_nat e) u)) in
  0 <= e' < e /\ boundary u e'.
Proof.
  intros Herr He Hf.
  set (l := take (Z.to_nat e) u) in *.
  assert (Hlen : Z.of_nat (length l) = e)
    by (subst l; rewrite length_take; lia).
  assert (Hl : l <> []) by (intros E; rewrite E in Hlen; simpl in Hlen; lia).
  pose proof (DecodeLastRuneInString_cases l Hl) as Hc. cbv zeta in Hc.
  rewrite Hlen in Hc.
  assert (Hat : forall i, 0 <= i < e -> at_ l i = at_ u i)
    by (intros i Hi; subst l; apply at_take; lia).
  destruct (DecodeLastRuneInString l) as [r size]. cbn [fst snd] in *.
  destruct Hc as [(Hlast & _ & ->)|(Hlast & [(-> & _)|(Hsz & Hd)])].
  - split; [lia|]. right. rewrite Hat in Hlast by lia.
    unfold continuation, RuneSelf in *. lia.
  - congruence.
  - split; [lia|]. right.
    rewrite (drop_at l (Z.to_nat (e - size))) in Hd by lia.
    replace (Z.of_nat (Z.to_nat (e - size))) with (e - size) in Hd by lia.
    rewrite Hat in Hd by lia.
    eapply DecodeRuneInString_lead. rewrite Hd. simpl. congruence.
Qed.

Lemma TrimRightFunc_endOfRune (s : string) (f : Z -> bool) :
  TrimRightFunc s f
  = slice s 0 (endOfRune (bytes s) (lastIndexFunc s f false)).
Proof.
  unfold TrimRightFunc, endOfRune. rewrite bytes_suffix.
  destruct (_ && _); [|reflexivity].
  now destruct (DecodeRuneInString _).
Qed.

Section RightLoop.
Variables (s : string) (f : Z -> bool).
Hypothesis f_RuneError : f RuneError = false.

(** The backward loop ends with [-1] or at the first byte of a rune on
    which [f] is false, decoded backwards from a boundary [e1]. *)
Lemma lastIndexFunc_loop_stop (fuel : nat) : forall e : Z,
  0 <= e <= len s -> boundary (bytes s) e ->
  lastIndexFunc_loop fuel s f false e = -1 \/
  exists e1 : Z,
    0 < e1 <= e /\ boundary (bytes s) e1 /\
    f (fst (DecodeLastRuneInString (take (Z.to_nat e1) (bytes s)))) = false /\
    lastIndexFunc_loop fuel s f false e
    = e1 - snd (DecodeLastRuneInString (take (Z.to_nat e1) (bytes s))).
Proof.
  induction fuel as [|fuel IH]; intros e He Hb; simpl; [now left|].
  destruct (e >? 0) eqn:Hpos; [|now left]. bool_to_Z.
  rewrite bytes_prefix.
  assert (Hlen : 0 < e <= Z.of_nat (length (bytes s)))
    by (rewrite length_bytes; unfold len in He; lia).
  destruct (DecodeLastRuneInString (take (Z.to_nat e) (bytes s)))
    as [r size] eqn:Hd.
  destruct (f r) eqn:Hf; simpl Bool.eqb; cbv iota.
  - pose proof (boundary_step (bytes s) e f f_RuneError Hlen) as Hstep.
    rewrite Hd in Hstep. cbn [fst snd] in Hstep.
    destruct (Hstep Hf) as [He' Hb'].
    destruct (IH (e - size) ltac:(lia) Hb') as [Hm|(e1 & He1 & Hb1 & Hf1 & Hi)].
    + now left.
    + right. exists e1. repeat split; try assumption; lia.
  - right. exists e. rewrite Hd. cbn [fst snd].
    repeat split; try assumption; lia.
Qed.

(** [strings.TrimRightFunc] returns the empty string or a prefix whose
    last rune, decoded backwards, does not satisfy [f]. *)
Lemma TrimRightFunc_last :
  TrimRightFunc s f = "" \/
  exists e : Z,
    0 < e <= len s /\ TrimRightFunc s f = slice s 0 e /\
    f (fst (DecodeLastRuneInString (bytes (TrimRightFunc s f)))) = false.
Proof.
  rewrite TrimRightFunc_endOfRune. unfold lastIndexFunc.
  destruct (lastIndexFunc_loop_stop (String.length s) (len s))
    as [Hm|(e1 & He1 & Hb1 & Hf1 & Hi)].
  - unfold len. lia.
  - left. rewrite length_bytes. reflexivity.
  - left. rewrite Hm. unfold endOfRune. simpl. unfold slice. simpl.
    now destruct s.
  - right. exists e1. rewrite Hi.
    rewrite endOfRune_last
      by (try assumption; rewrite length_bytes; unfold len in *; lia).
    split; [exact He1|]. split; [reflexivity|].
    now rewrite bytes_prefix.
Qed.

(** A non-empty string whose last rune does not satisfy [f] is left as it
    is. *)
Lemma TrimRightFunc_fixed :
  s <> "" ->
  f (fst (DecodeLastRuneInString (bytes s))) = false ->
  TrimRightFunc s f = s.
Proof.
  intros Hs Hf. rewrite TrimRightFunc_endOfRune. unfold lastIndexFunc.
  assert (Hlen : 0 < len s)
    by (unfold len; destruct s; [congruence | simpl String.length; lia]).
  destruct (String.length s) as [|fuel] eqn:Hfuel;
    [unfold len in Hlen; lia|].
  simpl. replace (len s >? 0) with true
    by (symmetry; rewrite Z.gtb_ltb; apply Z.ltb_lt; lia).
  rewrite slice_full.
  destruct (DecodeLastRuneInString (bytes s)) as [r size] eqn:Hd.
  simpl in Hf. rewrite Hf. simpl Bool.eqb. cbv iota.
  pose proof (endOfRune_last (bytes s) (len s)) as He.
  replace (take (Z.to_nat (len s)) (bytes s)) with (bytes s) in He
    by (symmetry; apply take_ge; rewrite length_bytes; unfold len; lia).
  rewrite Hd in He. cbn [snd] in He. rewrite He.
  - apply slice_full.
  - rewrite length_bytes. unfold len in *. lia.
  - left. rewrite length_bytes. reflexivity.
Qed.

End RightLoop.

Lemma TrimLeftFunc_empty (f : Z -> bool) : TrimLeftFunc "" f = "".
Proof. reflexivity. Qed.

Lemma TrimRightFunc_empty (f : Z -> bool) : TrimRightFunc "" f = "".
Proof. reflexivity. Qed.

(** A string whose first rune does not satisfy [f] is left as it is. *)
Lemma TrimLeftFunc_fixed (s : string) (f : Z -> bool) :
  f (fst (DecodeRuneInString (bytes s))) = false -> TrimLeftFunc s f = s.
Proof.
  intros Hf. destruct s as [|c s]; [reflexivity|].
  unfold TrimLeftFunc, indexFunc.
  change (String.length (String c s)) with (S (String.length s)).
  cbn [indexFunc_loop].
  replace (0 <? len (String c s)) with true
    by (symmetry; apply Z.ltb_lt; unfold len; simpl String.length; lia).
  rewrite slice_full.
  destruct (DecodeRuneInString (bytes (String c s))) as [r wd].
  simpl in Hf. rewrite Hf. simpl. apply slice_full.
Qed.

Lemma TrimRightFunc_idempotent (s : string) (f : Z -> bool) :
  f RuneError = false ->
  TrimRightFunc (TrimRightFunc s f) f = TrimRightFunc s f.
Proof.
  intros Herr.
  destruct (TrimRightFunc_last s f Herr) as [->|(e & _ & _ & Hf)];
    [reflexivity|].
  destruct (decide (TrimRightFunc s f = "")) as [->|Hne]; [reflexivity|].
  now apply TrimRightFunc_fixed.
Qed.

Lemma TrimFunc_idempotent (s : string) (f : Z -> bool) :
  f RuneError = false -> TrimFunc (TrimFunc s f) f = TrimFunc s f.
Proof.
  intros Herr.
  destruct (TrimFunc_head s f Herr) as [He|Hh].
  - rewrite He. reflexivity.
  - unfold TrimFunc at 1. rewrite (TrimLeftFunc_fixed _ f Hh).
    unfold TrimFunc. now apply TrimRightFunc_idempotent.
Qed.

(** [strings.TrimSpace] is idempotent. *)
Lemma TrimSpace_idempotent (s : string) :
  TrimSpace (TrimSpace s) = TrimSpace s.
Proof. now apply TrimFunc_idempotent. Qed.

(** What [TrimSpace] returns is empty or ends with a rune that is no white
    space. *)
Lemma TrimSpace_last (s : string) :
  TrimSpace s = "" \/
  unicode.IsSpace
    (fst (DecodeLastRuneInString (bytes (TrimSpace s)))) = false.
Proof.
  unfold TrimSpace, TrimFunc.
  destruct (TrimRightFunc_last (TrimLeftFunc s unicode.IsSpace)
              unicode.IsSpace eq_refl) as [->|(e & _ & _ & Hf)];
    [now left | now right].
Qed.

(** The strings that [TrimSpace] leaves as they are. *)
Lemma TrimSpace_fixed (s : string) :
  TrimSpace s = s <->
  s = "" \/
  (unicode.IsSpace (fst (DecodeRuneInString (bytes s))) = false /\
   unicode.IsSpace (fst (DecodeLastRuneInString (bytes s))) = false).
Proof.
  split.
  - intros Hfix.
    destruct (TrimSpace_head s) as [He|Hh], (TrimSpace_last s) as [He'|Hl];
      rewrite Hfix in *; auto.
  - intros [->|[Hh Hl]]; [reflexivity|].
    unfold TrimSpace, TrimFunc. rewrite (TrimLeftFunc_fixed _ _ Hh).
    destruct (decide (s = "")) as [->|Hne]; [reflexivity|].
    now apply TrimRightFunc_fixed.
Qed.

(** A string of white space only is trimmed to the empty string. *)
Lemma TrimSpace_whitespaceOnly (s : string) :
  whitespaceOnly s = true -> TrimSpace s = "".
Proof.
  unfold whitespaceOnly. intros Hw.
  unfold TrimSpace, TrimFunc, TrimLeftFunc. now rewrite Hw.
Qed.

End trimFacts.

(** * More on the token check *)

Module tokenFacts.
Import GoStringFacts gostringsFacts trimFacts checkTokenFacts.

Lemma Get_setHeader (key value : string) (r : Request) :
  Get (header (setHeader key value r)) key = value.
Proof. unfold Get, setHeader. cbn [header]. now rewrite lookup_insert_eq. Qed.

(** The verdict of [checkToken] is a function of the trimmed header. *)
Lemma checkToken_ext (TOKEN : string) (r r' : Request) :
  TrimSpace (Get (header r') "X-Argoos-Token")
  = TrimSpace (Get (header r) "X-Argoos-Token") ->
  checkToken TOKEN r' = checkToken TOKEN r.
Proof. intros Heq. unfold checkToken. now rewrite Heq. Qed.

Lemma main_TOKEN_env_value (v : string) :
  main_TOKEN v None = TrimSpace v.
Proof.
  unfold main_TOKEN. destruct (len v >? 0) eqn:Hlen; [reflexivity|].
  destruct v; [reflexivity|].
  unfold len in Hlen. simpl String.length in Hlen.
  rewrite Z.gtb_ltb in Hlen. apply Z.ltb_ge in Hlen. lia.
Qed.

End tokenFacts.

(** X1. A configured token can be matched by some request exactly when it is
    empty or has no white space at either end, that is when [TrimSpace]
    leaves it as it is.  Any other token rejects every request. *)
Theorem X1_usable_tokens (TOKEN : string) :
  (exists r : Request, checkToken TOKEN r = None) <->
  TOKEN = "" \/ TrimSpace TOKEN = TOKEN.
Proof.
  split.
  - intros [r Hr]. destruct (decide (TOKEN = "")) as [?|Hne]; [now left|].
    right. rewrite (checkTokenFacts.checkToken_enabled TOKEN r Hne) in Hr.
    cbv zeta in Hr. case_decide as Heq; [|discriminate].
    rewrite <- Heq. apply trimFacts.TrimSpace_idempotent.
  - intros Hfix. exists (setHeader "X-Argoos-Token" TOKEN Samples.getHealthz).
    destruct (decide (TOKEN = "")) as [->|Hne]; [reflexivity|].
    destruct Hfix as [?|Hfix]; [contradiction|].
    rewrite (checkTokenFacts.checkToken_enabled TOKEN _ Hne). cbv zeta.
    rewrite tokenFacts.Get_setHeader, Hfix. now case_decide.
Qed.

(** X2. Trimming the X-Argoos-Token value before sending it changes
    nothing: the check gives the same verdict on the value and on the
    trimmed value. *)
Theorem X2_trimmed_header_same_verdict (TOKEN v : string) (r : Request) :
  checkToken TOKEN (setHeader "X-Argoos-Token" (TrimSpace v) r)
  = checkToken TOKEN (setHeader "X-Argoos-Token" v r).
Proof.
  apply tokenFacts.checkToken_ext.
  rewrite !tokenFacts.Get_setHeader. apply trimFacts.TrimSpace_idempotent.
Qed.

(** X3. When the token comes from the environment variable alone, a request
    that carries the value of the variable as it was set, white space
    included, passes the check. *)
Theorem X3_env_value_passes (env_TOKEN : string) (r : Request) :
  checkToken (main_TOKEN env_TOKEN None)
    (setHeader "X-Argoos-Token" env_TOKEN r) = None.
Proof.
  rewrite tokenFacts.main_TOKEN_env_value.
  destruct (decide (TrimSpace env_TOKEN = "")) as [->|Hne]; [reflexivity|].
  rewrite (checkTokenFacts.checkToken_enabled _ _ Hne). cbv zeta.
  rewrite tokenFacts.Get_setHeader. now case_decide.
Qed.

(** X4. An environment variable TOKEN that holds white space only switches
    the check off: with no -token flag every request passes. *)
Theorem X4_blank_env_token_disables_check (env_TOKEN : string) (r : Request) :
  whitespaceOnly env_TOKEN = true ->
  main_TOKEN env_TOKEN None = "" /\
  checkToken (main_TOKEN env_TOKEN None) r = None.
Proof.
  intros Hw. rewrite tokenFacts.main_TOKEN_env_value.
  rewrite (trimFacts.TrimSpace_whitespaceOnly _ Hw). split; reflexivity.
Qed.

Lemma X4_blank_env_token_disables_check_witness :
  checkToken (main_TOKEN "   " None)
    (Samples.postEvent (Samples.withToken "anything") "{}") = None.
Proof.
  apply (X4_blank_env_token_disables_check "   "
           (Samples.postEvent (Samples.withToken "anything") "{}")).
  reflexivity.
Defined.

(** * More on the handlers *)

Module handlerFacts2.
Import GoStringFacts.

Lemma withoutLogs_app (t1 t2 : list Effect) :
  withoutLogs (t1 ++ t2) = withoutLogs t1 ++ withoutLogs t2.
Proof. apply omap_app. Qed.

Lemma withoutLogs_calls (l : list apiutils.Event) :
  withoutLogs (CallImpactedDeployments <$> l) = CallImpactedDeployments <$> l.
Proof. induction l as [|e l IH]; simpl; [reflexivity | now f_equal]. Qed.

(** The calls of a request that passes the check, log lines left out. *)
Lemma Action_authorized_calls (TOKEN : string) (Verbose : bool)
    (GetEvents : string -> string -> apiutils.Events) (r : Request) :
  checkToken TOKEN r = None ->
  let c := data (body r) in
  let registry := Get (header r) "X-Argoos-Registry-Name" in
  withoutLogs (trace (serve (Action TOKEN Verbose GetEvents) r))
  = ReadBody :: CallGetEvents c registry
    :: (CallImpactedDeployments <$> apiutils.Events_ (GetEvents c registry)).
Proof.
  intros Hc c registry.
  rewrite (Action_authorized TOKEN Verbose GetEvents r Hc). cbv zeta.
  fold c registry. cbn [trace].
  rewrite !withoutLogs_app, withoutLogs_calls. now destruct Verbose.
Qed.

End handlerFacts2.

(** X5. The status of the answer of [Action] tells what was done: it is 200
    or 401; it is 200 exactly when the check passed, and then the body was
    read and the decoder called once; it is 401 exactly when the check
    failed, and then neither happened. *)
Theorem X5_status_tells_processing
    (TOKEN : string) (Verbose : bool)
    (GetEvents : string -> string -> apiutils.Events) (r : Request) :
  let st := serve (Action TOKEN Verbose GetEvents) r in
  (status (w st) = 200 \/ status (w st) = 401) /\
  (status (w st) = 200 <-> checkToken TOKEN r = None) /\
  (status (w st) = 200 <->
     bodyRead (trace st) = true /\ length (decoded (trace st)) = 1%nat) /\
  (status (w st) = 401 <->
     bodyRead (trace st) = false /\ decoded (trace st) = []
     /\ dispatched (trace st) = []).
Proof.
  intros st. subst st.
  destruct (checkToken TOKEN r) as [e|] eqn:Hc.
  - rewrite (Action_unauthorized TOKEN Verbose GetEvents r e Hc).
    cbn [w trace status]. unfold StatusUnauthorized.
    repeat split; try (intros; discriminate); auto.
    + intros [H _]. discriminate H.
  - destruct (Action_authorized_readings TOKEN Verbose GetEvents r Hc)
      as (Hw & Hb & Hd & _).
    rewrite Hw, Hb, Hd. cbn [status]. unfold StatusOK.
    repeat split; try (intros; discriminate); auto.
    + intros [H _]. discriminate H.
Qed.

(** X6. [Action] does not look at the method, the URL or the address of the
    client: two requests with the same headers and the same body get the same
    answer, and the same reading and calls happen. *)
Theorem X6_method_and_url_ignored
    (TOKEN : string) (Verbose : bool)
    (GetEvents : string -> string -> apiutils.Events) (r r' : Request) :
  header r' = header r ->
  body r' = body r ->
  let st := serve (Action TOKEN Verbose GetEvents) r in
  let st' := serve (Action TOKEN Verbose GetEvents) r' in
  w st' = w st /\ withoutLogs (trace st') = withoutLogs (trace st).
Proof.
  intros Hh Hb st st'. subst st st'.
  assert (Hc : checkToken TOKEN r' = checkToken TOKEN r)
    by (unfold checkToken; now rewrite Hh).
  destruct (checkToken TOKEN r) as [e|] eqn:Hr.
  - rewrite (Action_unauthorized TOKEN Verbose GetEvents r e Hr).
    rewrite (Action_unauthorized TOKEN Verbose GetEvents r' e Hc).
    split; reflexivity.
  - rewrite (handlerFacts2.Action_authorized_calls _ _ _ r Hr).
    rewrite (handlerFacts2.Action_authorized_calls _ _ _ r' Hc).
    destruct (Action_authorized_readings TOKEN Verbose GetEvents r Hr)
      as (-> & _).
    destruct (Action_authorized_readings TOKEN Verbose GetEvents r' Hc)
      as (-> & _).
    cbv zeta. now rewrite Hh, Hb.
Qed.

Lemma X6_method_and_url_ignored_witness :
  let r := Samples.postEvent (Samples.withToken "s3cret") "{}" in
  let r' := Samples.mkRequest "GET" "/event" (Samples.withToken "s3cret")
              {| data := "{}"; err := None |} in
  let GetEvents := apiutils.GetEvents_spec Samples.twoRecords in
  w (serve (Action "s3cret" false GetEvents) r')
  = w (serve (Action "s3cret" false GetEvents) r) /\
  withoutLogs (trace (serve (Action "s3cret" false GetEvents) r'))
  = withoutLogs (trace (serve (Action "s3cret" false GetEvents) r)).
Proof.
  intros r r' GetEvents.
  apply (X6_method_and_url_ignored "s3cret" false GetEvents r r');
    reflexivity.
Defined.

(** X7. apiutils.Verbose changes the log only: with it or without it the
    answer is the same, and so are the reading of the body and the calls into
    apiutils. *)
Theorem X7_verbose_only_logs
    (TOKEN : string)
    (GetEvents : string -> string -> apiutils.Events) (r : Request) :
  let quiet := serve (Action TOKEN false GetEvents) r in
  let verbose := serve (Action TOKEN true GetEvents) r in
  w verbose = w quiet /\
  withoutLogs (trace verbose) = withoutLogs (trace quiet) /\
  (length (trace quiet) <= length (trace verbose) <= length (trace quiet) + 1)%nat.
Proof.
  intros quiet verbose. subst quiet verbose.
  destruct (checkToken TOKEN r) as [e|] eqn:Hc.
  - rewrite !(Action_unauthorized TOKEN _ GetEvents r e Hc).
    cbn [w trace]. repeat split; simpl; lia.
  - rewrite !(handlerFacts2.Action_authorized_calls _ _ _ r Hc).
    rewrite !(Action_authorized TOKEN _ GetEvents r Hc).
    cbn [w trace]. repeat split; rewrite ?length_app; simpl; lia.
Qed.

(** X8. The handlers that [main] registers are the routes of the server:
    for every path, what was registered for it is what answers it, and
    nothing is registered under -version. *)
Theorem X8_registered_routes
    (TOKEN : string) (Verbose : bool)
    (GetEvents : string -> string -> apiutils.Events)
    (st : Main.Settings) (path : string) :
  (Main.askedVersion st = false ->
   handlerOf TOKEN Verbose GetEvents
     <$> Main.registered (Main.startup st) path
   = DefaultServeMux TOKEN Verbose GetEvents path) /\
  (Main.askedVersion st = true ->
   Main.registered (Main.startup st) path = None).
Proof.
  unfold Main.registered, Main.startup, DefaultServeMux.
  split; intros ->; [|reflexivity].
  rewrite !(String.eqb_sym path).
  destruct ((len (Main.serverkey st) >? 0) && (len (Main.servercert st) >? 0));
    cbn -[String.eqb];
    generalize (String.eqb "/healthz" path), (String.eqb "/event" path);
    intros [] []; reflexivity.
Qed.

(** * More on the signal goroutine *)

Module SigFacts2.

Ltac invert_steps :=
  repeat match goal with
  | H : Sig.step _ _ _ |- _ => inv H
  | H : Sig.steps _ _ _ |- _ => inv H
  end.

(** Membership in a list that is written out. *)
Ltac is_in :=
  repeat first [apply list_elem_of_here | apply list_elem_of_further].

Ltac not_in :=
  let H := fresh "Hin" in
  intros H;
  repeat (apply elem_of_cons in H as [H|H]; [discriminate H|]);
  exact (proj1 (elem_of_nil _) H).

(** Every run of [sig] is the beginning of the one whole run. *)
Lemma run_prefix (run : list Sig.Label) (p : Sig.pc) :
  Sig.steps Sig.AtNotify run p ->
  exists rest, Sig.Notify Sig.Interrupt :: Sig.interrupt_run = run ++ rest.
Proof. intros Hrun. invert_steps; eexists; reflexivity. Qed.

End SigFacts2.

(** X9. [sig] neither prints nor exits before [apiutils.StopRollout] has
    returned: in every run, partial or whole, that has no return of
    [StopRollout] there is no [log.Println], no [os.Exit], and the process
    has not exited.  A [StopRollout] that blocks keeps the process alive. *)
Theorem X9_nothing_before_stop_returns
    (run : list Sig.Label) (p : Sig.pc) :
  Sig.steps Sig.AtNotify run p ->
  Sig.RetStopRollout ∉ run ->
  (forall line, Sig.Println line ∉ run) /\
  (forall code, Sig.Exit code ∉ run) /\
  (forall code, p <> Sig.Exited code).
Proof.
  intros Hrun Hnot.
  SigFacts2.invert_steps;
    try solve [exfalso; apply Hnot; SigFacts2.is_in];
    (split; [|split]); intros x; try discriminate; SigFacts2.not_in.
Qed.

Lemma X9_nothing_before_stop_returns_witness :
  let run := [Sig.Notify Sig.Interrupt; Sig.Recv Sig.Interrupt;
              Sig.CallStopRollout] in
  Sig.steps Sig.AtNotify run (Sig.InStopRollout Sig.Interrupt) /\
  forall code, Sig.Exit code ∉ run.
Proof.
  intros run.
  assert (Hrun : Sig.steps Sig.AtNotify run (Sig.InStopRollout Sig.Interrupt))
    by (repeat econstructor).
  split; [exact Hrun|].
  apply (X9_nothing_before_stop_returns run
           (Sig.InStopRollout Sig.Interrupt) Hrun).
  SigFacts2.not_in.
Defined.

(** * [main]: settings and start-up *)

Module mainFacts.
Import Main gostringsCase.

Lemma len_pos (v : string) : (len v >? 0) = negb (String.eqb v "").
Proof. destruct v; reflexivity. Qed.

Lemma Getenv_insert (env : gmap string string) (k v k' : string) :
  Getenv (<[k:=v]> env) k' = if decide (k = k') then v else Getenv env k'.
Proof.
  unfold Getenv. case_decide as Hk.
  - subst. now rewrite lookup_insert_eq.
  - now rewrite lookup_insert_ne.
Qed.

Lemma Getenv_delete (env : gmap string string) (k k' : string) :
  Getenv (delete k env) k' = if decide (k = k') then "" else Getenv env k'.
Proof.
  unfold Getenv. case_decide as Hk.
  - subst. now rewrite lookup_delete_eq.
  - now rewrite lookup_delete_ne.
Qed.

(** [main] reads the environment through [os.Getenv] only. *)
Lemma settings_ext (M : string -> string) (init : Globals)
    (env env' : gmap string string) (fl : Flags) :
  (forall k, Getenv env k = Getenv env' k) ->
  settings M init env fl = settings M init env' fl.
Proof.
  intros H. unfold settings, envString, envSwitch. now rewrite !H.
Qed.

(** [ToUpper] on ASCII strings. *)
Lemma mapBytes_id (s : string) :
  hasLower s = false -> mapBytes upperByte s = s.
Proof.
  unfold hasLower. induction s as [|c s IH]; [reflexivity|].
  cbn [list_ascii_of_string existsb mapBytes]. intros H.
  apply orb_false_iff in H as [Hc Hs].
  rewrite (IH Hs). unfold upperByte. now rewrite Hc.
Qed.

Lemma ToUpper_ascii (M : string -> string) (s : string) :
  isASCII s = true -> ToUpper M s = mapBytes upperByte s.
Proof.
  intros Ha. unfold ToUpper. rewrite Ha.
  destruct (hasLower s) eqn:Hl; [reflexivity|].
  simpl. symmetry. now apply mapBytes_id.
Qed.

Lemma upperByte_upper (c : ascii) :
  (byteval c <? utf8.RuneSelf) = true ->
  isLower (upperByte c) = false /\
  (byteval (upperByte c) <? utf8.RuneSelf) = true.
Proof.
  destruct c as [[] [] [] [] [] [] [] []]; intros H;
    try discriminate H; split; reflexivity.
Qed.

Lemma mapBytes_upper (s : string) :
  isASCII s = true ->
  isASCII (mapBytes upperByte s) = true /\
  hasLower (mapBytes upperByte s) = false /\
  String.length (mapBytes upperByte s) = String.length s.
Proof.
  unfold isASCII, hasLower. induction s as [|c s IH]; [now split|].
  cbn [list_ascii_of_string forallb existsb mapBytes String.length].
  intros H. apply andb_true_iff in H as [Hc Hs].
  destruct (IH Hs) as (IHa & IHl & IHn).
  destruct (upperByte_upper c Hc) as [Hl Hu].
  rewrite IHa, IHl, IHn, Hl, Hu. now split.
Qed.

(** On an ASCII string [ToUpper] is idempotent and keeps the length. *)
Lemma ToUpper_idempotent (M : string -> string) (s : string) :
  isASCII s = true ->
  ToUpper M (ToUpper M s) = ToUpper M s /\
  (len (ToUpper M s) >? 0) = (len s >? 0).
Proof.
  intros Ha. rewrite (ToUpper_ascii M s Ha).
  destruct (mapBytes_upper s Ha) as (Ha' & Hl' & Hn).
  split.
  - unfold ToUpper. now rewrite Ha', Hl'.
  - unfold len. now rewrite Hn.
Qed.

End mainFacts.

(** X10. An environment variable set to the empty string counts as not set:
    [main] resolves the same settings as without the variable. *)
Theorem X10_empty_variable_is_unset
    (Map_ToUpper : string -> string) (init : Main.Globals)
    (env : gmap string string) (fl : Main.Flags) (key : string) :
  Main.settings Map_ToUpper init (<[key:=""]> env) fl
  = Main.settings Map_ToUpper init (delete key env) fl.
Proof.
  apply mainFacts.settings_ext. intros k.
  now rewrite mainFacts.Getenv_insert, mainFacts.Getenv_delete.
Qed.

(** X11. A flag given on the command line wins over the environment: each
    setting whose flag is given is the value of the flag, whatever the
    environment holds.  This covers the token, which is then not trimmed. *)
Theorem X11_flags_win
    (Map_ToUpper : string -> string) (init : Main.Globals)
    (env : gmap string string) (fl : Main.Flags) :
  let st := Main.settings Map_ToUpper init env fl in
  (forall v, Main.flag_listen fl = Some v -> Main.host st = v) /\
  (forall v, Main.flag_server_cert fl = Some v -> Main.servercert st = v) /\
  (forall v, Main.flag_server_key fl = Some v -> Main.serverkey st = v) /\
  (forall v, Main.flag_version fl = Some v -> Main.askedVersion st = v) /\
  (forall v, Main.flag_token fl = Some v -> Main.token st = v) /\
  (forall v, Main.flag_master fl = Some v ->
             Main.KubeMasterURL (Main.globals st) = v) /\
  (forall v, Main.flag_incluster fl = Some v ->
             Main.InCluster (Main.globals st) = v) /\
  (forall v, Main.flag_skip_ssl_verification fl = Some v ->
             Main.SkipSSLVerification (Main.globals st) = v) /\
  (forall v, Main.flag_verbose fl = Some v ->
             Main.Verbose (Main.globals st) = v) /\
  (forall v, Main.flag_ca_file fl = Some v ->
             Main.CAFile (Main.globals st) = v) /\
  (forall v, Main.flag_cert_file fl = Some v ->
             Main.CertFile (Main.globals st) = v) /\
  (forall v, Main.flag_key_file fl = Some v ->
             Main.KeyFile (Main.globals st) = v).
Proof.
  intros st. subst st. unfold Main.settings.
  cbn [Main.host Main.servercert Main.serverkey Main.askedVersion Main.token
       Main.globals Main.KubeMasterURL Main.InCluster
       Main.SkipSSLVerification Main.Verbose Main.CAFile Main.CertFile
       Main.KeyFile].
  repeat split; intros v ->; reflexivity.
Qed.

(** X12. With no flag for them, the environment moves the boolean settings
    one way only.  INCLUSTER and SKIP_SSL_VERIFICATION set to FALSE, NO or 0
    switch their setting off, and no value switches it on; VERBOSE set to
    TRUE, YES or 1 switches verbosity on, and no value switches it off. *)
Theorem X12_environment_switches_one_way
    (Map_ToUpper : string -> string) (init : Main.Globals)
    (env : gmap string string) (fl : Main.Flags) :
  let g := Main.globals (Main.settings Map_ToUpper init env fl) in
  (Main.flag_incluster fl = None ->
   Main.Getenv env "INCLUSTER" ∈ ["FALSE"; "NO"; "0"] ->
   Main.InCluster g = false) /\
  (Main.flag_skip_ssl_verification fl = None ->
   Main.Getenv env "SKIP_SSL_VERIFICATION" ∈ ["FALSE"; "NO"; "0"] ->
   Main.SkipSSLVerification g = false) /\
  (Main.flag_verbose fl = None ->
   Main.Getenv env "VERBOSE" ∈ ["TRUE"; "YES"; "1"] ->
   Main.Verbose g = true) /\
  (Main.flag_incluster fl = None ->
   Main.InCluster g = true -> Main.InCluster init = true) /\
  (Main.flag_skip_ssl_verification fl = None ->
   Main.SkipSSLVerification g = true -> Main.SkipSSLVerification init = true)
  /\
  (Main.flag_verbose fl = None ->
   Main.Verbose init = true -> Main.Verbose g = true).
Proof.
  intros g. subst g. unfold Main.settings, Main.envSwitch.
  cbn [Main.globals Main.InCluster Main.SkipSSLVerification Main.Verbose].
  split; [|split; [|split]].
  1-3: intros -> Hin; cbn [default];
       repeat (apply elem_of_cons in Hin as [->|Hin]; [reflexivity|]);
       now apply elem_of_nil in Hin.
  repeat split; intros ->; cbn [default];
    repeat case_match; congruence.
Qed.

Lemma X12_environment_switches_one_way_witness :
  Main.InCluster
    (Main.globals
       (Main.settings (fun s => s)
          {| Main.KubeMasterURL := ""; Main.InCluster := true;
             Main.SkipSSLVerification := true; Main.Verbose := false;
             Main.CAFile := ""; Main.CertFile := ""; Main.KeyFile := "" |}
          (<["INCLUSTER":="NO"]> ∅) Main.noFlags)) = false.
Proof.
  apply (proj1 (X12_environment_switches_one_way (fun s => s)
                  {| Main.KubeMasterURL := ""; Main.InCluster := true;
                     Main.SkipSSLVerification := true; Main.Verbose := false;
                     Main.CAFile := ""; Main.CertFile := "";
                     Main.KeyFile := "" |}
                  (<["INCLUSTER":="NO"]> ∅) Main.noFlags)).
  - reflexivity.
  - apply list_elem_of_further, list_elem_of_here.
Defined.

Module mainFacts2.
Import Main gostringsCase mainFacts.

(** Changing the value of a boolean variable of the environment to its
    upper-case form changes nothing. *)
Lemma envSwitch_upper (M : string -> string) (env : gmap string string)
    (key v : string) (cases : list string) (b x : bool) :
  isASCII v = true ->
  envSwitch M (<[key:=ToUpper M v]> env) key cases b x
  = envSwitch M (<[key:=v]> env) key cases b x.
Proof.
  intros Ha. unfold envSwitch, upperIn. rewrite !Getenv_insert.
  rewrite !decide_True by reflexivity.
  destruct (ToUpper_idempotent M v Ha) as [-> ->]. reflexivity.
Qed.

Lemma envSwitch_other (M : string -> string) (env : gmap string string)
    (key key' v : string) (cases : list string) (b x : bool) :
  key <> key' ->
  envSwitch M (<[key:=v]> env) key' cases b x = envSwitch M env key' cases b x.
Proof.
  intros Hne. unfold envSwitch. rewrite Getenv_insert.
  now rewrite decide_False by exact Hne.
Qed.

Lemma envString_other (env : gmap string string) (key key' v x : string) :
  key <> key' ->
  envString (<[key:=v]> env) key' x = envString env key' x.
Proof.
  intros Hne. unfold envString. rewrite Getenv_insert.
  now rewrite decide_False by exact Hne.
Qed.

Ltac other_keys :=
  rewrite ?envString_other by discriminate;
  repeat match goal with
  | |- context [envSwitch ?M (<[?k:=?v]> ?e) ?k' ?c ?b ?x] =>
      rewrite (envSwitch_other M e k k' v c b x) by discriminate
  end;
  rewrite ?Getenv_insert; rewrite ?decide_False by discriminate.

(** The two ways [main] can run. *)
Lemma run_version (st : Settings) (serverError : option string) :
  askedVersion st = true ->
  run st serverError = [FmtPrintln (VERSION ++ LF)%string; OsExit 0].
Proof. intros Hv. unfold run, startup. now rewrite Hv. Qed.

Lemma run_serve (st : Settings) (serverError : option string) :
  askedVersion st = false ->
  exists server,
    (server = ListenAndServe (host st) \/
     server = ListenAndServeTLS (host st) (servercert st) (serverkey st)) /\
    run st serverError
    = [ApiConfig (globals st); GoSig; StartRollout;
       LogPrintln ("Starting" ++ LF)%string;
       HandleFunc "/healthz" HealthHandler;
       HandleFunc "/event" ActionHandler; server]
      ++ match serverError with
         | Some err => fatal err
         | None => []
         end.
Proof.
  intros Hv. unfold run, startup. rewrite Hv.
  destruct (_ && _); eexists; (split; [|reflexivity]); auto.
Qed.

End mainFacts2.

(** X13. The boolean variables of the environment are read without regard
    to the case of ASCII letters: INCLUSTER, SKIP_SSL_VERIFICATION and
    VERBOSE give the same settings with a value and with its upper-case
    form. *)
Theorem X13_boolean_variables_ignore_case
    (Map_ToUpper : string -> string) (init : Main.Globals)
    (env : gmap string string) (fl : Main.Flags) (v : string) :
  gostringsCase.isASCII v = true ->
  let V := gostringsCase.ToUpper Map_ToUpper v in
  Main.settings Map_ToUpper init (<["INCLUSTER":=V]> env) fl
  = Main.settings Map_ToUpper init (<["INCLUSTER":=v]> env) fl /\
  Main.settings Map_ToUpper init (<["SKIP_SSL_VERIFICATION":=V]> env) fl
  = Main.settings Map_ToUpper init (<["SKIP_SSL_VERIFICATION":=v]> env) fl /\
  Main.settings Map_ToUpper init (<["VERBOSE":=V]> env) fl
  = Main.settings Map_ToUpper init (<["VERBOSE":=v]> env) fl.
Proof.
  intros Ha V. subst V. unfold Main.settings.
  repeat split; mainFacts2.other_keys;
    now rewrite (mainFacts2.envSwitch_upper _ _ _ _ _ _ _ Ha).
Qed.

Lemma X13_boolean_variables_ignore_case_witness :
  Main.InCluster
    (Main.globals
       (Main.settings (fun s => s)
          {| Main.KubeMasterURL := ""; Main.InCluster := true;
             Main.SkipSSLVerification := true; Main.Verbose := false;
             Main.CAFile := ""; Main.CertFile := ""; Main.KeyFile := "" |}
          (<["INCLUSTER":="No"]> ∅) Main.noFlags)) = false.
Proof.
  rewrite <- (proj1 (X13_boolean_variables_ignore_case (fun s => s)
                       {| Main.KubeMasterURL := ""; Main.InCluster := true;
                          Main.SkipSSLVerification := true;
                          Main.Verbose := false; Main.CAFile := "";
                          Main.CertFile := ""; Main.KeyFile := "" |}
                       ∅ Main.noFlags "No" eq_refl)).
  reflexivity.
Defined.

(** X14. The server speaks TLS only when both a certificate and a key are
    configured; with one of the two missing it serves plain HTTP. *)
Theorem X14_tls_needs_certificate_and_key (st : Main.Settings) :
  Main.askedVersion st = false ->
  (Main.ListenAndServeTLS (Main.host st) (Main.servercert st)
     (Main.serverkey st) ∈ Main.startup st
   <-> Main.servercert st <> "" /\ Main.serverkey st <> "") /\
  (Main.ListenAndServe (Main.host st) ∈ Main.startup st
   <-> Main.servercert st = "" \/ Main.serverkey st = "").
Proof.
  intros Hv. unfold Main.startup. rewrite Hv.
  rewrite !mainFacts.len_pos.
  destruct (String.eqb_spec (Main.serverkey st) "") as [Hk|Hk],
           (String.eqb_spec (Main.servercert st) "") as [Hc|Hc];
    cbn [negb andb]; (split; split);
    first [ solve [intros _; SigFacts2.is_in]
          | solve [intros Hin; exfalso; revert Hin; SigFacts2.not_in]
          | solve [intuition congruence] ].
Qed.

Lemma X14_tls_needs_certificate_and_key_witness :
  let st := Main.settings (fun s => s)
              {| Main.KubeMasterURL := ""; Main.InCluster := true;
                 Main.SkipSSLVerification := true; Main.Verbose := false;
                 Main.CAFile := ""; Main.CertFile := ""; Main.KeyFile := "" |}
              (<["SERVER_CERT":="/etc/tls/server.crt"]> ∅) Main.noFlags in
  Main.ListenAndServe ":3000" ∈ Main.startup st.
Proof.
  intros st.
  apply (proj2 (X14_tls_needs_certificate_and_key st eq_refl)).
  right. reflexivity.
Defined.

(** X15. How [main] ends once [flag.Parse] has returned.  It exits with
    status 0 exactly under -version, and then it has called nothing of
    apiutils and started no server.  Otherwise it configures apiutils, starts
    [sig] and the rollout, registers the two handlers and calls
    [http.ListenAndServe] or [http.ListenAndServeTLS] on the configured
    address, in that order, and it exits only when the server returns, with
    status 1, after printing the error. *)
Theorem X15_main_exit_status
    (Map_ToUpper : string -> string) (init : Main.Globals)
    (env : gmap string string) (fl : Main.Flags)
    (serverError : option string) :
  let st := Main.settings Map_ToUpper init env fl in
  let r := Main.run st serverError in
  (Main.OsExit 0 ∈ r <-> Main.flag_version fl = Some true) /\
  (Main.OsExit 1 ∈ r <->
     Main.flag_version fl <> Some true /\ serverError <> None) /\
  (Main.flag_version fl = Some true ->
   r = [Main.FmtPrintln (Main.VERSION ++ LF)%string; Main.OsExit 0]) /\
  (Main.flag_version fl <> Some true ->
   exists server,
     (server = Main.ListenAndServe (Main.host st) \/
      server = Main.ListenAndServeTLS (Main.host st) (Main.servercert st)
                 (Main.serverkey st)) /\
     r = [Main.ApiConfig (Main.globals st); Main.GoSig; Main.StartRollout;
          Main.LogPrintln ("Starting" ++ LF)%string;
          Main.HandleFunc "/healthz" Main.HealthHandler;
          Main.HandleFunc "/event" Main.ActionHandler; server]
         ++ match serverError with
            | Some err => [Main.LogPrint (err ++ LF)%string; Main.OsExit 1]
            | None => []
            end).
Proof.
  intros st r.
  assert (Hv : Main.askedVersion st = true <-> Main.flag_version fl = Some true).
  { subst st. unfold Main.settings. cbn [Main.askedVersion].
    destruct (Main.flag_version fl) as [[]|]; simpl; split; congruence. }
  destruct (Main.askedVersion st) eqn:Hasked.
  - assert (Hfl : Main.flag_version fl = Some true) by now apply Hv.
    subst r. rewrite (mainFacts2.run_version st serverError Hasked).
    split; [split; [intros _; exact Hfl | intros _; SigFacts2.is_in]|].
    split; [split; [intros Hin; exfalso; revert Hin; SigFacts2.not_in
                   | intros [Hne _]; contradiction]|].
    split; [intros _; reflexivity | intros Hne; contradiction].
  - assert (Hfl : Main.flag_version fl <> Some true)
      by (intros E; apply Hv in E; discriminate).
    destruct (mainFacts2.run_serve st serverError Hasked)
      as (server & Hserver & Hrun).
    subst r. rewrite Hrun. unfold Main.fatal. clear Hrun.
    split; [split; [|intros E; contradiction]|].
    { intros Hin. exfalso. revert Hin.
      destruct Hserver as [-> | ->], serverError; cbn [app];
        SigFacts2.not_in. }
    split; [split|].
    { intros Hin. split; [exact Hfl|]. intros E. subst serverError.
      revert Hin. destruct Hserver as [-> | ->]; cbn [app];
        SigFacts2.not_in. }
    { intros [_ He]. destruct serverError as [err|]; [|congruence].
      destruct Hserver as [-> | ->]; cbn [app]; SigFacts2.is_in. }
    split; [intros E; contradiction|].
    intros _. exists server. split; [exact Hserver | reflexivity].
Qed.
